(** * E-commerce analytics pipeline: validation, sessionization, aggregation

    A shallow embedding of the Python sources
      - [scripts/generate_events.py]  (session tracking of the event generator),
      - [scripts/data_validation.py]  (the event schema and batch validation),
      - [scripts/etl_pipeline.py]     (the extract/validate/transform/load run),
    and the properties the specification states about them.

    Conventions of the embedding.
      - A [datetime] is a number of microseconds ([Z]); a [timedelta] is the
        difference of two of them.
      - A Python [float] that holds a finite value is an exact rational [Qc];
        rounding is not modelled.  The results of a pandas division, which
        can be infinite or NaN, have the type [fval] below.
      - A Python [dict] is a [gmap]; where the iteration order of the dict is
        observable (the tables handed to [_load]) it is an association list.
      - Code that can raise returns a sum: [inl e] is the exception [e]. *)

From Stdlib Require Import ZArith QArith Qcanon Ascii String List.
From stdpp Require Import base decidable option numbers list strings sorting gmap.

Local Open Scope Z_scope.

(** [timedelta.total_seconds()]: the microseconds divided by [10**6].
    Python rounds the quotient to a float.  The session rule compares it
    with a whole number of seconds, which a float holds exactly, and a
    timedelta that differs from it does so by a microsecond at least, so
    the comparison of the rounded value agrees with the exact one. *)
Definition total_seconds (td : Z) : Qc := (Qc_of_Z td / Qc_of_Z 1000000)%Qc.

(** ** Session tracking ([EventGenerator._get_or_create_session]) *)

Module Generator.

(** The entries of [self.active_sessions].  A session identifier is
    [SES_] followed by hexadecimal digits of a fresh [uuid.uuid4()]; the
    model names the identifier by the number of the draw, so that two
    draws give two identifiers.  The [cart] list of the entry is only
    appended to by [_generate_event_properties] and never read by the
    session rule; it is kept as the number of its items. *)
Record Session := mkSession {
  session_id : nat;
  start_time : Z;
  last_activity : Z;
  event_count : Z;
  cart : nat
}.

Record EventGenerator := mkGen {
  active_sessions : gmap string Session;
  session_timeout_minutes : Z;
  uuid_draws : nat
}.

(** [EventGenerator.__init__]: no session is open, the timeout is 30. *)
Definition init : EventGenerator :=
  {| active_sessions := ∅; session_timeout_minutes := 30; uuid_draws := 0 |}.

(** The tail of [_get_or_create_session]: "Create new session". *)
Definition create_session (g : EventGenerator) (user_id : string)
    (timestamp : Z) : nat * EventGenerator :=
  let sid := uuid_draws g in
  (sid,
   {| active_sessions :=
        <[user_id := {| session_id := sid; start_time := timestamp;
                        last_activity := timestamp; event_count := 1;
                        cart := 0 |}]> (active_sessions g);
      session_timeout_minutes := session_timeout_minutes g;
      uuid_draws := S (uuid_draws g) |}).

Definition _get_or_create_session (g : EventGenerator) (user_id : string)
    (timestamp : Z) : nat * EventGenerator :=
  match active_sessions g !! user_id with
  | Some session =>
      if decide (total_seconds (timestamp - last_activity session)
                 < Qc_of_Z (session_timeout_minutes g * 60))%Qc
      then
        (session_id session,
         {| active_sessions :=
              <[user_id := {| session_id := session_id session;
                              start_time := start_time session;
                              last_activity := timestamp;
                              event_count := event_count session + 1;
                              cart := cart session |}]> (active_sessions g);
            session_timeout_minutes := session_timeout_minutes g;
            uuid_draws := uuid_draws g |})
      else create_session g user_id timestamp
  | None => create_session g user_id timestamp
  end.

(** The session part of the loop of [generate]: one call per event, in
    the order of the events; the session identifiers are returned in the
    same order. *)
Fixpoint sessionize (g : EventGenerator) (events : list (string * Z))
    : list nat * EventGenerator :=
  match events with
  | [] => ([], g)
  | (u, t) :: rest =>
      let '(sid, g1) := _get_or_create_session g u t in
      let '(sids, g2) := sessionize g1 rest in
      (sid :: sids, g2)
  end.

(** Every identifier stored in the table was drawn before. *)
Definition ids_drawn (g : EventGenerator) : Prop :=
  ∀ u s, active_sessions g !! u = Some s → (session_id s < uuid_draws g)%nat.

(** The rule as the specification words it, for two consecutive events of
    one user: the second event opens a session exactly when the gap is
    larger than the timeout. *)
Definition splits_iff_gap_exceeds (g : EventGenerator) (u : string)
    (t1 t2 : Z) : Prop :=
  let '(s1, g1) := _get_or_create_session g u t1 in
  let '(s2, _) := _get_or_create_session g1 u t2 in
  s2 ≠ s1 ↔ (Qc_of_Z (session_timeout_minutes g * 60) < total_seconds (t2 - t1))%Qc.

End Generator.

(** ** Values shared by the schema and the frames *)

(** The closed enumerations of [data_validation.py]; each member is a
    string, its value. *)
Inductive EventTypeEnum :=
  | PAGE_VIEW | PRODUCT_VIEW | ADD_TO_CART | REMOVE_FROM_CART
  | BEGIN_CHECKOUT | PURCHASE | SEARCH | SIGNUP | LOGIN.

Inductive DeviceType := MOBILE | DESKTOP | TABLET.

Inductive TrafficSource :=
  | ORGANIC | PAID_SEARCH | SOCIAL | EMAIL | DIRECT | REFERRAL.

Global Instance EventTypeEnum_eq_dec : EqDecision EventTypeEnum.
Proof. solve_decision. Defined.
Global Instance DeviceType_eq_dec : EqDecision DeviceType.
Proof. solve_decision. Defined.
Global Instance TrafficSource_eq_dec : EqDecision TrafficSource.
Proof. solve_decision. Defined.

Definition EventTypeEnum_members : list (string * EventTypeEnum) :=
  [("page_view", PAGE_VIEW); ("product_view", PRODUCT_VIEW);
   ("add_to_cart", ADD_TO_CART); ("remove_from_cart", REMOVE_FROM_CART);
   ("begin_checkout", BEGIN_CHECKOUT); ("purchase", PURCHASE);
   ("search", SEARCH); ("signup", SIGNUP); ("login", LOGIN)]%string.

Definition DeviceType_members : list (string * DeviceType) :=
  [("mobile", MOBILE); ("desktop", DESKTOP); ("tablet", TABLET)]%string.

Definition TrafficSource_members : list (string * TrafficSource) :=
  [("organic", ORGANIC); ("paid_search", PAID_SEARCH); ("social", SOCIAL);
   ("email", EMAIL); ("direct", DIRECT); ("referral", REFERRAL)]%string.

(** Looking a member up by its value, as the enum constructor does. *)
Fixpoint by_value {A} (members : list (string * A)) (v : string) : option A :=
  match members with
  | [] => None
  | (name, m) :: rest => if decide (name = v) then Some m else by_value rest v
  end.

(** A decoded JSON document ([json.loads]), also the type of the
    [properties] mapping. *)
#[local] Unset Elimination Schemes.
Inductive json :=
  | JNull
  | JBool (b : bool)
  | JNum (q : Qc)
  | JStr (s : string)
  | JList (items : list json)
  | JDict (items : list (string * json)).
#[local] Set Elimination Schemes.

(** What a pandas division returns: a finite number, an infinity, or NaN. *)
Inductive fval :=
  | Fin (q : Qc)
  | PosInf
  | NegInf
  | NaN.

Definition is_finite (x : fval) : bool :=
  match x with Fin _ => true | _ => false end.

(** Element-wise [a / b] of two numeric columns: division by zero does not
    raise, it gives an infinity with the sign of [a], or NaN for [0 / 0]. *)
Definition pd_truediv (a b : Qc) : fval :=
  if decide (b = 0%Qc) then
    if decide (a = 0%Qc) then NaN
    else if decide (0 < a)%Qc then PosInf else NegInf
  else Fin (a / b)%Qc.

(** Exceptions: the name of the exception type and what [str(e)] shows.
    Messages built with f-strings keep their arguments instead of the
    formatted text. *)
Inductive message :=
  | MsgText (s : string)
  | MsgFields (fields : list string)
  | MsgBelowThreshold (validity_rate threshold : Qc).

Record exn := Exn { type_name : string; str : message }.

Definition ValidationError (fields : list string) : exn :=
  Exn "ValidationError" (MsgFields fields).
Definition ValueError (m : message) : exn := Exn "ValueError" m.
Definition FileNotFoundError (m : message) : exn := Exn "FileNotFoundError" m.
Definition KeyError (column : string) : exn := Exn "KeyError" (MsgText column).

(** Calendar fields of a datetime counted in microseconds from
    1970-01-01T00:00:00, a Thursday. *)
Definition us_per_day : Z := 86400000000.
Definition dt_date (t : Z) : Z := t `div` us_per_day.
Definition dt_hour (t : Z) : Z := (t `mod` us_per_day) `div` 3600000000.
Definition dt_dayofweek (t : Z) : Z := (dt_date t + 3) `mod` 7.

(** ** Frames *)

Module Frame.

(** A cell of the [timestamp] column: a datetime, or a string that
    [pd.to_datetime] has still to parse. *)
Inductive ts_cell :=
  | TsDatetime (t : Z)
  | TsStr (s : string).

(** A row of an events frame.  The first twelve columns are the fields of
    the event schema.  The four columns that [_transform] derives are
    optional: a frame that lacks the column has [None] in every row. *)
Record Row := mkRow {
  event_id : string;
  event_type : EventTypeEnum;
  user_id : string;
  session_id : string;
  timestamp : ts_cell;
  properties : json;
  device : option DeviceType;
  country : option string;
  traffic_source : option TrafficSource;
  product_id : option string;
  category : option string;
  revenue : Qc;
  event_date : option Z;
  event_hour : option Z;
  day_of_week : option Z;
  is_weekend : option bool
}.

(** An events frame: [pd.DataFrame()], which has no column at all, or a
    frame with the event columns and a list of rows. *)
Inductive DataFrame :=
  | NoColumns
  | Events (rows : list Row).

(** [len(df)] *)
Definition len (df : DataFrame) : Z :=
  match df with
  | NoColumns => 0
  | Events rows => Z.of_nat (length rows)
  end.

End Frame.

(** ** Functions of the Python libraries

    The parsers of the standard library and of pandas, the quality
    checker, the clock and the behaviour of the storage are not part of
    the embedded code; the pipeline is modelled for any of them. *)
Record QualityIssue := mkIssue {
  check : string;
  severity : string;
  issue_message : string
}.

Class Runtime := {
  (** [datetime.fromisoformat]; [None] when it raises [ValueError] *)
  fromisoformat : string → option Z;
  (** [json.loads]; [None] when it raises [JSONDecodeError] *)
  json_loads : string → option json;
  (** [pd.to_datetime] on one string cell *)
  to_datetime : string → exn + Z;
  (** [DataQualityChecker(df).run_all_checks()]: the issues found, which
      depend on statistics of the frame and on the clock *)
  run_all_checks : Frame.DataFrame → exn + list QualityIssue;
  (** [datetime.now()] *)
  now : Z;
  (** [duckdb.connect] and the [CREATE SCHEMA] statements of
      [_setup_database]: the exception raised, if any *)
  connect_raises : option exn;
  (** [df.to_parquet(path)] for the table of this name: the exception
      raised, if any *)
  to_parquet_raises : string → option exn;
  (** the two [conn.execute] statements that replace the table of this
      name: the exception raised, if any *)
  execute_raises : string → option exn
}.

(** ** The event schema and batch validation ([data_validation.py]) *)

Module Validation.

Local Open Scope string_scope.

(** [str_strip_whitespace=True]: leading and trailing white space is
    removed from every string field before its constraints are checked. *)
Fixpoint lstrip (s : string) : string :=
  match s with
  | String c rest => if Ascii.is_space c then lstrip rest else s
  | EmptyString => EmptyString
  end.

Definition strip (s : string) : string :=
  String.rev (lstrip (String.rev (lstrip s))).

(** The character class [[A-F0-9]]. *)
Definition is_upper_hex (c : ascii) : bool :=
  let n := N_of_ascii c in
  ((48 <=? n) && (n <=? 57) || (65 <=? n) && (n <=? 70))%N.

Fixpoint all_chars (p : ascii → bool) (s : string) : bool :=
  match s with
  | EmptyString => true
  | String c rest => p c && all_chars p rest
  end.

(** The patterns of the schema all have the shape [^PREFIX[A-F0-9]{n}$]. *)
Definition matches (prefix : string) (n : nat) (s : string) : bool :=
  String.prefix prefix s
  && (String.length s =? String.length prefix + n)%nat
  && all_chars is_upper_hex (substring (String.length prefix) n s).

(** The constraints of a [str] field: [min_length], [max_length] and
    [pattern], checked on the stripped value, which is the validated one. *)
Definition check_str (min_length max_length : option nat)
    (pattern : option (string → bool)) (v : string) : option string :=
  let s := strip v in
  let n := String.length s in
  if from_option (λ m, m <=? n)%nat true min_length
     && from_option (λ m, n <=? m)%nat true max_length
     && from_option (λ p, p s) true pattern
  then Some s else None.

(** A row of the raw frame as [row.to_dict()] hands it to [EventSchema]:
    [None] is a key that is absent or null.  A present value has the
    Python type of the annotation of its field; [timestamp] and
    [properties] can have either of the two types their validators
    distinguish. *)
Inductive raw_timestamp :=
  | RawDatetime (t : Z)
  | RawIso (s : string).

Inductive raw_properties :=
  | RawDict (items : list (string * json))
  | RawJson (s : string).

Record RawEvent := mkRaw {
  raw_event_id : option string;
  raw_event_type : option string;
  raw_user_id : option string;
  raw_session_id : option string;
  raw_timestamp_ : option raw_timestamp;
  raw_properties_ : option raw_properties;
  raw_device : option string;
  raw_country : option string;
  raw_traffic_source : option string;
  raw_product_id : option string;
  raw_category : option string;
  raw_revenue : option Qc
}.

(** A validated event, the instance of [EventSchema]. *)
Record Event := mkEvent {
  event_id : string;
  event_type : EventTypeEnum;
  user_id : string;
  session_id : string;
  timestamp : Z;
  properties : json;
  device : option DeviceType;
  country : option string;
  traffic_source : option TrafficSource;
  product_id : option string;
  category : option string;
  revenue : Qc
}.

(** [str.replace("Z", "+00:00")] *)
Fixpoint replace_Z (s : string) : string :=
  match s with
  | EmptyString => EmptyString
  | String c rest =>
      if decide (c = "Z"%char) then "+00:00" +:+ replace_Z rest
      else String c (replace_Z rest)
  end.

Section Schema.
Context `{!Runtime}.

(** The validator [parse_timestamp] and the [datetime] annotation. *)
Definition parse_timestamp (v : raw_timestamp) : option Z :=
  match v with
  | RawIso s => fromisoformat (replace_Z s)
  | RawDatetime t => Some t
  end.

(** The validator [parse_properties] and the annotation
    [dict[str, Any] | str]: JSON text has to decode, and to a mapping or
    to a string. *)
Definition parse_properties (v : raw_properties) : option json :=
  match v with
  | RawJson s =>
      match json_loads s with
      | Some (JDict items) => Some (JDict items)
      | Some (JStr s') => Some (JStr (strip s'))
      | _ => None
      end
  | RawDict items => Some (JDict items)
  end.

(** A required field: absent is an error. *)
Definition required {A B} (check : A → option B) (v : option A) : option B :=
  v ≫= check.

(** A field with a default: absent gives the default. *)
Definition optional {A B} (check : A → option B) (dflt : B) (v : option A)
    : option B :=
  match v with
  | None => Some dflt
  | Some x => check x
  end.

Definition check_revenue (x : Qc) : option Qc :=
  if bool_decide (0 ≤ x)%Qc && bool_decide (x ≤ Qc_of_Z 100000)%Qc
  then Some x else None.

(** The name of a field whose validation failed. *)
Definition failed {A} (name : string) (r : option A) : list string :=
  match r with
  | None => [name]
  | Some _ => []
  end.

(** [EventSchema] applied to the keys of [record]: every field is validated; the event is built
    when none fails, and otherwise one [ValidationError] reports the
    fields that did. *)
Definition EventSchema (r : RawEvent) : exn + Event :=
  let f_event_id :=
    required (check_str (Some 20%nat) (Some 24%nat) (Some (matches "EVT_" 16)))
             (raw_event_id r) in
  let f_event_type := required (by_value EventTypeEnum_members) (raw_event_type r) in
  let f_user_id :=
    required (check_str (Some 17%nat) (Some 17%nat) (Some (matches "USER_" 12)))
             (raw_user_id r) in
  let f_session_id :=
    required (check_str (Some 20%nat) (Some 24%nat) (Some (matches "SES_" 16)))
             (raw_session_id r) in
  let f_timestamp := required parse_timestamp (raw_timestamp_ r) in
  let f_properties := required parse_properties (raw_properties_ r) in
  let f_device :=
    optional (λ v, Some <$> by_value DeviceType_members v) None (raw_device r) in
  let f_country :=
    optional (λ v, Some <$> check_str (Some 2%nat) (Some 2%nat) None v) None
             (raw_country r) in
  let f_traffic_source :=
    optional (λ v, Some <$> by_value TrafficSource_members v) None
             (raw_traffic_source r) in
  let f_product_id :=
    optional (λ v, Some <$> check_str None None (Some (matches "PROD_" 8)) v)
             None (raw_product_id r) in
  let f_category :=
    optional (λ v, Some <$> check_str None None None v) None (raw_category r) in
  let f_revenue := optional check_revenue 0%Qc (raw_revenue r) in
  match f_event_id, f_event_type, f_user_id, f_session_id, f_timestamp,
        f_properties, f_device, f_country, f_traffic_source, f_product_id,
        f_category, f_revenue with
  | Some a, Some b, Some c, Some d, Some e, Some f,
    Some g, Some h, Some i, Some j, Some k, Some l =>
      inr (mkEvent a b c d e f g h i j k l)
  | _, _, _, _, _, _, _, _, _, _, _, _ =>
      inl (ValidationError
             (failed "event_id" f_event_id ++ failed "event_type" f_event_type
              ++ failed "user_id" f_user_id ++ failed "session_id" f_session_id
              ++ failed "timestamp" f_timestamp
              ++ failed "properties" f_properties
              ++ failed "device" f_device ++ failed "country" f_country
              ++ failed "traffic_source" f_traffic_source
              ++ failed "product_id" f_product_id
              ++ failed "category" f_category ++ failed "revenue" f_revenue))
  end.

End Schema.

(** [ValidationResult] and its property [validity_rate]. *)
Record ValidationResult := mkResult {
  total_records : Z;
  valid_records : Z;
  invalid_records : Z;
  error_summary : gmap string Z;
  validation_timestamp : Z
}.

Definition validity_rate (self : ValidationResult) : Qc :=
  if decide (total_records self = 0) then 0%Qc
  else (Qc_of_Z (valid_records self) / Qc_of_Z (total_records self)
        * Qc_of_Z 100)%Qc.

(** One entry of [error_samples]; its ["data"], a prefix of the printed
    row, is left out. *)
Record Sample := mkSample {
  index : Z;
  error : message
}.

(** The local variables of [validate_events] that the loop updates. *)
Record Locals := mkLocals {
  l_valid_records : list Event;
  l_invalid_indices : list Z;
  l_error_summary : gmap string Z;
  l_error_samples : gmap string (list Sample)
}.

Definition no_locals : Locals := mkLocals [] [] ∅ ∅.

(** The [except] block, up to the test of [raise_on_error]. *)
Definition record_error (idx : Z) (e : exn) (sample_errors : Z) (st : Locals)
    : Locals :=
  let error_type := type_name e in
  let summary :=
    <[error_type := default 0 (l_error_summary st !! error_type) + 1]>
      (l_error_summary st) in
  let samples0 :=
    match l_error_samples st !! error_type with
    | None => <[error_type := []]> (l_error_samples st)
    | Some _ => l_error_samples st
    end in
  let collected : list Sample := default [] (samples0 !! error_type) in
  let samples1 :=
    if decide (Z.of_nat (length collected) < sample_errors)
    then <[error_type := (collected ++ [mkSample idx (str e)])%list]> samples0
    else samples0 in
  mkLocals (l_valid_records st) (l_invalid_indices st ++ [idx]) summary samples1.

(** [pd.DataFrame(valid_records)]: one row per validated event, with the
    columns of the schema only. *)
Definition row_of_event (e : Event) : Frame.Row :=
  Frame.mkRow (event_id e) (event_type e) (user_id e) (session_id e)
    (Frame.TsDatetime (timestamp e)) (properties e) (device e) (country e)
    (traffic_source e) (product_id e) (category e) (revenue e)
    None None None None.

Section Batch.
Context `{!Runtime}.

(** The loop [for idx, row in df.iterrows()] over a frame with the default
    index, from row [idx] on. *)
Fixpoint validate_loop (rows : list RawEvent) (idx : Z)
    (raise_on_error : bool) (sample_errors : Z) (st : Locals) : exn + Locals :=
  match rows with
  | [] => inr st
  | row :: rest =>
      match EventSchema row with
      | inr validated =>
          validate_loop rest (idx + 1) raise_on_error sample_errors
            (mkLocals (l_valid_records st ++ [validated]) (l_invalid_indices st)
               (l_error_summary st) (l_error_samples st))
      | inl e =>
          let st' := record_error idx e sample_errors st in
          if raise_on_error then inl e
          else validate_loop rest (idx + 1) raise_on_error sample_errors st'
      end
  end.

(** The result and the frame built after the loop. *)
Definition finish (df : list RawEvent) (st : Locals)
    : Frame.DataFrame * ValidationResult :=
  let result :=
    mkResult (Z.of_nat (length df)) (Z.of_nat (length (l_valid_records st)))
      (Z.of_nat (length (l_invalid_indices st))) (l_error_summary st) now in
  let valid_df :=
    match l_valid_records st with
    | [] => Frame.NoColumns
    | _ => Frame.Events (row_of_event <$> l_valid_records st)
    end in
  (valid_df, result).

Definition validate_events (df : list RawEvent) (raise_on_error : bool)
    (sample_errors : Z) : exn + (Frame.DataFrame * ValidationResult) :=
  match validate_loop df 0 raise_on_error sample_errors no_locals with
  | inl e => inl e
  | inr st => inr (finish df st)
  end.

(** What the batch holds: the events of the rows that validate, the name
    of the exception type of a row that does not, and the number of rows
    that fail with an exception of a given type. *)
Definition valid_of (rows : list RawEvent) : list Event :=
  omap (λ r, match EventSchema r with inr ev => Some ev | inl _ => None end) rows.

Definition error_type_of (r : RawEvent) : option string :=
  match EventSchema r with
  | inl e => Some (type_name e)
  | inr _ => None
  end.

Definition count_errors (error_type : string) (rows : list RawEvent) : Z :=
  Z.of_nat (length (filter (λ r, error_type_of r = Some error_type) rows)).

End Batch.

(** The number of samples collected for an error type. *)
Definition samples_len (st : Locals) (error_type : string) : Z :=
  Z.of_nat (length (default [] (l_error_samples st !! error_type))).

(** The defaults of the keyword arguments of [validate_events]. *)
Definition default_raise_on_error : bool := false.
Definition default_sample_errors : Z := 5.

(** The rule as the specification words it: a record that carries a
    [session_id] is rejected, and some record without one is accepted. *)
Definition session_id_must_be_absent `{!Runtime} : Prop :=
  (∀ r, is_Some (raw_session_id r) → ∃ e, EventSchema r = inl e)
  ∧ (∃ r ev, raw_session_id r = None ∧ EventSchema r = inr ev).

End Validation.

(** ** The tables of [_transform] *)

Module Sessions.
Record Row := mkRow {
  session_id : string;
  user_id : string;
  session_start : Z;
  session_end : Z;
  event_count : Z;
  page_views : Z;
  product_views : Z;
  add_to_carts : Z;
  purchases : Z;
  total_revenue : Qc;
  unique_products : Z;
  countries : option string;
  devices : option DeviceType;
  session_duration_seconds : Qc;
  is_converted : bool
}.
End Sessions.

Module Daily.
Record Row := mkRow {
  event_date : Z;
  total_events : Z;
  unique_users : Z;
  unique_sessions : Z;
  page_views : Z;
  product_views : Z;
  add_to_carts : Z;
  purchases : Z;
  total_revenue : Qc;
  conversion_rate : fval;
  avg_revenue_per_user : fval
}.
End Daily.

Module Products.
Record Row := mkRow {
  product_id : string;
  category : string;
  view_count : Z;
  cart_adds : Z;
  purchases : Z;
  total_revenue : Qc;
  unique_viewers : Z;
  cart_rate : fval;
  purchase_rate : fval
}.
End Products.

Inductive Table :=
  | TEvents (rows : list Frame.Row)
  | TSessions (rows : list Sessions.Row)
  | TDaily (rows : list Daily.Row)
  | TProducts (rows : list Products.Row).

(** [len(table)] *)
Definition table_len (t : Table) : Z :=
  match t with
  | TEvents rows => Z.of_nat (length rows)
  | TSessions rows => Z.of_nat (length rows)
  | TDaily rows => Z.of_nat (length rows)
  | TProducts rows => Z.of_nat (length rows)
  end.

(** ** Grouping and aggregation ([df.groupby(...).agg(...)]) *)

Module Aggregate.
Import Frame.

(** [groupby] keeps the rows whose key is not null, one group per key,
    and lists the groups in the order of their keys. *)
Section GroupBy.
Context {A K : Type} `{EqDecision K}.
Context (le : K → K → Prop) `{∀ x y, Decision (le x y)}.

Definition group_keys (key : A → option K) (rows : list A) : list K :=
  merge_sort le (remove_dups (omap key rows)).

Definition group (key : A → option K) (k : K) (rows : list A) : list A :=
  filter (λ r, key r = Some k) rows.

End GroupBy.

(** The rows whose key is one of [ks]. *)
Definition key_among {A K} (key : A → option K) (ks : list K) (r : A) : Prop :=
  ∃ k, key r = Some k ∧ k ∈ ks.

Global Instance key_among_dec {A K} `{EqDecision K} (key : A → option K)
    (ks : list K) (r : A) : Decision (key_among key ks r).
Proof.
  unfold key_among. destruct (key r) as [k|].
  - destruct (decide (k ∈ ks)) as [Hin|Hnin].
    + left. eauto.
    + right. intros (k' & Hk & Hin). by simplify_eq.
  - right. intros (k & Hk & _). done.
Defined.

(** The orders of the keys: dates by value, pairs of strings
    lexicographically. *)
Definition pair_leb (a b : string * string) : bool :=
  if decide (a.1 = b.1) then String.leb a.2 b.2 else String.ltb a.1 b.1.

Definition pair_le (a b : string * string) : Prop := pair_leb a b = true.

Global Instance pair_le_dec a b : Decision (pair_le a b).
Proof. unfold pair_le. apply _. Defined.

(** The value of a [timestamp] cell once the column holds datetimes; the
    second case does not occur after [pd.to_datetime]. *)
Definition ts (r : Row) : Z :=
  match timestamp r with
  | TsDatetime t => t
  | TsStr _ => 0
  end.

(** ["min"] and ["max"] of a group, which is never empty. *)
Definition min_of (l : list Z) : Z :=
  match l with
  | [] => 0
  | x :: rest => foldr Z.min x rest
  end.

Definition max_of (l : list Z) : Z :=
  match l with
  | [] => 0
  | x :: rest => foldr Z.max x rest
  end.

(** ["sum"] *)
Definition sum (l : list Qc) : Qc := foldr Qcplus 0%Qc l.

(** [lambda x: (x == name).sum()] on the [event_type] column *)
Definition count_type (ty : EventTypeEnum) (rows : list Row) : Z :=
  Z.of_nat (length (filter (λ r, event_type r = ty) rows)).

(** ["nunique"]: the number of distinct values that are not null *)
Definition nunique {V} `{EqDecision V} (col : list (option V)) : Z :=
  Z.of_nat (length (remove_dups (omap id col))).

(** ["first"]: the first value that is not null *)
Definition first {V} (col : list (option V)) : option V :=
  head (omap id col).

(** [view_count.replace(0, 1)] *)
Definition replace_0_1 (n : Z) : Z := if decide (n = 0) then 1 else n.

(** *** Session aggregations *)

Definition session_key (r : Row) : option (string * string) :=
  Some (session_id r, user_id r).

Definition session_row (rows : list Row) (k : string * string) : Sessions.Row :=
  let g := group session_key k rows in
  let session_start := min_of (ts <$> g) in
  let session_end := max_of (ts <$> g) in
  let purchases := count_type PURCHASE g in
  Sessions.mkRow k.1 k.2 session_start session_end
    (Z.of_nat (length g))
    (count_type PAGE_VIEW g) (count_type PRODUCT_VIEW g)
    (count_type ADD_TO_CART g) purchases
    (sum (revenue <$> g))
    (nunique (product_id <$> g))
    (first (country <$> g)) (first (device <$> g))
    (total_seconds (session_end - session_start))
    (bool_decide (purchases > 0)).

Definition fct_sessions_of (rows : list Row) : list Sessions.Row :=
  session_row rows <$> group_keys pair_le session_key rows.

(** *** Daily metrics *)

Definition daily_row (rows : list Row) (d : Z) : Daily.Row :=
  let g := group event_date d rows in
  let unique_users := nunique (Some ∘ user_id <$> g) in
  let unique_sessions := nunique (Some ∘ session_id <$> g) in
  let purchases := count_type PURCHASE g in
  let total_revenue := sum (revenue <$> g) in
  Daily.mkRow d (Z.of_nat (length g)) unique_users unique_sessions
    (count_type PAGE_VIEW g) (count_type PRODUCT_VIEW g)
    (count_type ADD_TO_CART g) purchases total_revenue
    (pd_truediv (Qc_of_Z purchases) (Qc_of_Z unique_sessions))
    (pd_truediv total_revenue (Qc_of_Z unique_users)).

Definition fct_daily_of (rows : list Row) : list Daily.Row :=
  daily_row rows <$> group_keys Z.le event_date rows.

(** *** Product performance *)

Definition product_key (r : Row) : option (string * string) :=
  p ← product_id r; c ← category r; Some (p, c).

Definition product_row (rows : list Row) (k : string * string) : Products.Row :=
  let g := group product_key k rows in
  let view_count := count_type PRODUCT_VIEW g in
  let cart_adds := count_type ADD_TO_CART g in
  let purchases := count_type PURCHASE g in
  Products.mkRow k.1 k.2 view_count cart_adds purchases
    (sum (revenue <$> g))
    (nunique (Some ∘ user_id <$> g))
    (pd_truediv (Qc_of_Z cart_adds) (Qc_of_Z (replace_0_1 view_count)))
    (pd_truediv (Qc_of_Z purchases) (Qc_of_Z (replace_0_1 view_count))).

Definition fct_products_of (product_events : list Row) : list Products.Row :=
  product_row product_events <$> group_keys pair_le product_key product_events.

(** *** Columns assigned by [_transform] *)

Definition set_timestamp (t : ts_cell) (r : Row) : Row :=
  mkRow (event_id r) (event_type r) (user_id r) (session_id r) t
    (properties r) (device r) (country r) (traffic_source r) (product_id r)
    (category r) (revenue r) (event_date r) (event_hour r) (day_of_week r)
    (is_weekend r).

Definition set_event_date (r : Row) : Row :=
  mkRow (event_id r) (event_type r) (user_id r) (session_id r) (timestamp r)
    (properties r) (device r) (country r) (traffic_source r) (product_id r)
    (category r) (revenue r) (Some (dt_date (ts r))) (event_hour r)
    (day_of_week r) (is_weekend r).

(** The four assignments to [fct_events]. *)
Definition enrich (r : Row) : Row :=
  let dow := dt_dayofweek (ts r) in
  mkRow (event_id r) (event_type r) (user_id r) (session_id r) (timestamp r)
    (properties r) (device r) (country r) (traffic_source r) (product_id r)
    (category r) (revenue r) (Some (dt_date (ts r))) (Some (dt_hour (ts r)))
    (Some dow) (Some (bool_decide (dow = 5 ∨ dow = 6))).

End Aggregate.

(** ** The pipeline ([etl_pipeline.py]) *)

Module Pipeline.
Import Frame Aggregate.
Local Open Scope string_scope.

Record PipelineConfig := mkConfig {
  source_dir : string;
  target_dir : string;
  database_path : string;
  min_validity_rate : Qc;
  enable_quality_checks : bool;
  parallel_workers : Z
}.

(** The configuration with the defaults of the dataclass. *)
Definition default_config (source target database : string) : PipelineConfig :=
  mkConfig source target database (Qc_of_Z 95) true 4.

Record PipelineMetrics := mkMetrics {
  start_time : Z;
  end_time : option Z;
  records_extracted : Z;
  records_validated : Z;
  records_loaded : Z;
  validity_rate : Qc;
  quality_issues : list QualityIssue;
  errors : list message
}.

(** [self.conn]: [None], an open connection, or a closed one. *)
Inductive Connection := NotConnected | Open | Closed.

(** The pipeline object together with what it acts on: the files
    [events_*.parquet] found in the source directory, in the order of
    their names; the parquet files of the target directory and the tables
    of the [analytics] schema, by name; the frames that exist, reached
    through references; and the lines the logger has written. *)
Record ETLPipeline := mkPipeline {
  config : PipelineConfig;
  metrics : PipelineMetrics;
  conn : Connection;
  source_files : list (list Validation.RawEvent);
  target_files : gmap string Table;
  analytics : gmap string Table;
  heap : list DataFrame;
  log : list string
}.

Global Instance DataFrame_inhabited : Inhabited DataFrame := populate NoColumns.

(** [ETLPipeline(config)] in a given environment. *)
Definition new_pipeline `{!Runtime} (cfg : PipelineConfig)
    (sources : list (list Validation.RawEvent))
    (target db : gmap string Table) : ETLPipeline :=
  mkPipeline cfg (mkMetrics now None 0 0 0 0%Qc [] []) NotConnected
    sources target db [] [].

(** Methods run on the pipeline and either return or raise. *)
Definition M (A : Type) : Type := ETLPipeline → (exn + A) * ETLPipeline.

Global Instance M_ret : MRet M := λ A x p, (inr x, p).
Global Instance M_bind : MBind M := λ A B f m p,
  match m p with
  | (inr x, p') => f x p'
  | (inl e, p') => (inl e, p')
  end.

Definition raise {A} (e : exn) : M A := λ p, (inl e, p).
Definition get : M ETLPipeline := λ p, (inr p, p).
Definition modify (f : ETLPipeline → ETLPipeline) : M unit := λ p, (inr (), f p).

Definition set_metrics (f : PipelineMetrics → PipelineMetrics) : M unit :=
  modify (λ p, mkPipeline (config p) (f (metrics p)) (conn p) (source_files p)
                 (target_files p) (analytics p) (heap p) (log p)).

Definition set_conn (c : Connection) : M unit :=
  modify (λ p, mkPipeline (config p) (metrics p) c (source_files p)
                 (target_files p) (analytics p) (heap p) (log p)).

Definition set_heap (f : list DataFrame → list DataFrame) : M unit :=
  modify (λ p, mkPipeline (config p) (metrics p) (conn p) (source_files p)
                 (target_files p) (analytics p) (f (heap p)) (log p)).

(** [logger.info], [logger.warning] and [logger.error]: the fixed text of
    the message is kept. *)
Definition logger (line : string) : M unit :=
  modify (λ p, mkPipeline (config p) (metrics p) (conn p) (source_files p)
                 (target_files p) (analytics p) (heap p) (log p ++ [line])%list).

(** [df.to_parquet(parquet_path)] *)
Definition write_parquet (file_name : string) (t : Table) : M unit :=
  modify (λ p, mkPipeline (config p) (metrics p) (conn p) (source_files p)
                 (<[file_name := t]> (target_files p)) (analytics p) (heap p)
                 (log p)).

(** [DROP TABLE IF EXISTS] and [CREATE TABLE ... AS SELECT * FROM df] *)
Definition create_table (table_name : string) (t : Table) : M unit :=
  modify (λ p, mkPipeline (config p) (metrics p) (conn p) (source_files p)
                 (target_files p) (<[table_name := t]> (analytics p)) (heap p)
                 (log p)).

(** A new frame, and the reference to it. *)
Definition alloc (df : DataFrame) : M nat :=
  p ← get; set_heap (λ h, h ++ [df])%list;; mret (length (heap p)).

Definition deref (l : nat) : M DataFrame :=
  p ← get; mret (heap p !!! l).

(** Assignment to a column of the frame behind a reference changes that
    frame for every holder of the reference. *)
Definition store (l : nat) (df : DataFrame) : M unit :=
  set_heap (λ h, <[l := df]> h).

(** [for issue in high_severity: logger.warning(...)] *)
Definition log_issues (issues : list QualityIssue) : M unit :=
  foldr (λ i k, logger (issue_message i);; k) (mret ()) issues.

Section Stages.
Context `{!Runtime}.

(** [_setup_database]: connecting and creating the schemas succeed or
    fail together. *)
Definition _setup_database : M unit :=
  logger "Setting up database";;
  match connect_raises with
  | Some e => raise e
  | None => set_conn Open;; logger "Database schema created successfully"
  end.

(** [_extract]: the files found are read in the order of their names and
    concatenated; reading a file that was found is taken to succeed. *)
Definition _extract : M (list Validation.RawEvent) :=
  logger "Extracting data";;
  p ← get;
  let parquet_files := source_files p in
  match parquet_files with
  | [] => raise (FileNotFoundError (MsgText "No event files found"))
  | _ =>
      let combined_df := concat parquet_files in
      set_metrics (λ m, mkMetrics (start_time m) (end_time m)
                          (Z.of_nat (length combined_df)) (records_validated m)
                          (records_loaded m) (validity_rate m)
                          (quality_issues m) (errors m));;
      logger "Extracted records";;
      mret combined_df
  end.

(** [_validate]: the threshold gate.  The frame [validate_events] builds
    is a new object; the reference to it is what the stage returns. *)
Definition _validate (df : list Validation.RawEvent) : M nat :=
  logger "Validating data schema...";;
  match Validation.validate_events df Validation.default_raise_on_error
          Validation.default_sample_errors with
  | inl e => raise e
  | inr (valid_df, result) =>
      valid_ref ← alloc valid_df;
      let rate := Validation.validity_rate result in
      set_metrics (λ m, mkMetrics (start_time m) (end_time m)
                          (records_extracted m) (Validation.valid_records result)
                          (records_loaded m) rate (quality_issues m) (errors m));;
      p ← get;
      if decide (rate < min_validity_rate (config p))%Qc then
        let error_msg := MsgBelowThreshold rate (min_validity_rate (config p)) in
        logger "Validity rate is below threshold";;
        set_metrics (λ m, mkMetrics (start_time m) (end_time m)
                            (records_extracted m) (records_validated m)
                            (records_loaded m) (validity_rate m)
                            (quality_issues m) (errors m ++ [error_msg])%list);;
        raise (ValueError error_msg)
      else
        logger "Validation passed";;
        mret valid_ref
  end.

(** [_run_quality_checks]: the checker reads the frame and does not
    change it. *)
Definition _run_quality_checks (df : nat) : M unit :=
  p ← get;
  if negb (enable_quality_checks (config p)) then
    logger "Quality checks disabled, skipping..."
  else
    logger "Running data quality checks...";;
    frame ← deref df;
    match run_all_checks frame with
    | inl e => raise e
    | inr issues =>
        set_metrics (λ m, mkMetrics (start_time m) (end_time m)
                            (records_extracted m) (records_validated m)
                            (records_loaded m) (validity_rate m) issues
                            (errors m));;
        let high_severity :=
          filter (λ i, severity i = "high") issues in
        (match high_severity with
         | [] => mret ()
         | _ =>
             logger "Found high severity issues:";;
             log_issues high_severity
         end);;
        logger "Quality checks complete"
    end.

(** [pd.to_datetime(df["timestamp"])]: every cell becomes a datetime, or
    the call raises on the first string it cannot parse. *)
Fixpoint to_datetime_column (rows : list Row) : exn + list Row :=
  match rows with
  | [] => inr []
  | r :: rest =>
      let cell :=
        match timestamp r with
        | TsDatetime t => inr t
        | TsStr s => to_datetime s
        end in
      match cell, to_datetime_column rest with
      | inl e, _ => inl e
      | inr _, inl e => inl e
      | inr t, inr rest' => inr (set_timestamp (TsDatetime t) r :: rest')
      end
  end.

(** [_transform]: [df] is the reference the caller holds.  The two
    assignments to columns of [df] are stores through that reference;
    [fct_events] is a copy, and the three aggregated tables are new frames.
    The dictionary returned keeps its tables in the order of insertion. *)
Definition _transform (df : nat) : M (list (string * Table)) :=
  logger "Transforming data...";;
  frame ← deref df;
  match frame with
  | NoColumns => raise (KeyError "timestamp")
  | Events rows0 =>
      match to_datetime_column rows0 with
      | inl e => raise e
      | inr rows1 =>
          (* df["timestamp"] = pd.to_datetime(df["timestamp"]) *)
          store df (Events rows1);;
          (* 1. fct_events = df.copy() and its four new columns *)
          let fct_events := enrich <$> rows1 in
          (* 2. session aggregations *)
          let fct_sessions := fct_sessions_of rows1 in
          (* 3. df["event_date"] = df["timestamp"].dt.date *)
          let rows2 := set_event_date <$> rows1 in
          store df (Events rows2);;
          let fct_daily := fct_daily_of rows2 in
          (* 4. product performance *)
          let product_events := filter (λ r, is_Some (product_id r)) rows2 in
          let transformed :=
            ([("fct_events", TEvents fct_events);
              ("fct_sessions", TSessions fct_sessions);
              ("fct_daily_metrics", TDaily fct_daily)]
             ++ match product_events with
                | [] => []
                | _ => [("fct_product_performance",
                         TProducts (fct_products_of product_events))]
                end)%list in
          logger "Created transformed tables";;
          mret transformed
      end
  end.

(** The loop of [_load] over [tables.items()]: each table is written to
    its final parquet file and then to its final database table, before
    the next table is looked at. *)
Fixpoint load_tables (tables : list (string * Table)) (total_loaded : Z) : M Z :=
  match tables with
  | [] => mret total_loaded
  | (table_name, df) :: rest =>
      match to_parquet_raises table_name with
      | Some e => raise e
      | None =>
          write_parquet (table_name +:+ ".parquet") df;;
          logger "Saved";;
          p ← get;
          (match conn p with
           | NotConnected => mret ()
           | _ =>
               match execute_raises table_name with
               | Some e => raise e
               | None =>
                   create_table table_name df;;
                   logger "Loaded to DuckDB"
               end
           end);;
          load_tables rest (total_loaded + table_len df)
      end
  end.

(** [_load]; creating the target directory is taken to succeed. *)
Definition _load (tables : list (string * Table)) : M unit :=
  logger "Loading data...";;
  total_loaded ← load_tables tables 0;
  set_metrics (λ m, mkMetrics (start_time m) (end_time m)
                      (records_extracted m) (records_validated m)
                      total_loaded (validity_rate m) (quality_issues m)
                      (errors m));;
  logger "Loaded total records".

Definition set_end_time : M unit :=
  set_metrics (λ m, mkMetrics (start_time m) (Some now)
                      (records_extracted m) (records_validated m)
                      (records_loaded m) (validity_rate m) (quality_issues m)
                      (errors m)).

(** The [try] block of [run]. *)
Definition run_try : M unit :=
  _setup_database;;
  raw_df ← _extract;
  valid_df ← _validate raw_df;
  _run_quality_checks valid_df;;
  transformed_tables ← _transform valid_df;
  _load transformed_tables;;
  set_end_time;;
  logger "PIPELINE COMPLETED SUCCESSFULLY".

(** The [except] block of [run], before it raises the exception again. *)
Definition run_except (e : exn) : M unit :=
  set_end_time;;
  set_metrics (λ m, mkMetrics (start_time m) (end_time m)
                      (records_extracted m) (records_validated m)
                      (records_loaded m) (validity_rate m) (quality_issues m)
                      (errors m ++ [str e])%list);;
  logger "Pipeline failed".

(** The [finally] block of [run]. *)
Definition run_finally : M unit :=
  p ← get;
  match conn p with
  | NotConnected => mret ()
  | _ => set_conn Closed
  end.

(** [ETLPipeline.run]: the metrics when the pipeline completes, the
    exception when it fails. *)
Definition run : M PipelineMetrics := λ p,
  let '(r, p1) := (logger "STARTING ETL PIPELINE";; run_try) p in
  let p2 := match r with
            | inl e => (run_except e p1).2
            | inr _ => p1
            end in
  let p3 := (run_finally p2).2 in
  match r with
  | inl e => (inl e, p3)
  | inr _ => (inr (metrics p3), p3)
  end.

End Stages.


(** The stages of [run] that precede [_load]. *)
Definition before_load `{!Runtime} : M (list (string * Table)) :=
  logger "STARTING ETL PIPELINE";;
  _setup_database;;
  raw_df ← _extract;
  valid_df ← _validate raw_df;
  _run_quality_checks valid_df;;
  _transform valid_df.

(** The parquet files and the database tables after the given tables have
    been written in order. *)
Definition written (tables : list (string * Table)) (files : gmap string Table)
    : gmap string Table :=
  foldl (λ acc nt, <[nt.1 +:+ ".parquet" := nt.2]> acc) files tables.

Definition created (tables : list (string * Table)) (db : gmap string Table)
    : gmap string Table :=
  foldl (λ acc nt, <[nt.1 := nt.2]> acc) db tables.



End Pipeline.

(** ** Reading the result of [_transform] *)

Module Tables.
Import Frame Aggregate.
Local Open Scope string_scope.

(** [tables[name]] *)
Fixpoint table_named (name : string) (tables : list (string * Table))
    : option Table :=
  match tables with
  | [] => None
  | (n, t) :: rest => if decide (n = name) then Some t else table_named name rest
  end.

Definition sessions_in (tables : list (string * Table)) : list Sessions.Row :=
  match table_named "fct_sessions" tables with
  | Some (TSessions rows) => rows
  | _ => []
  end.

Definition daily_in (tables : list (string * Table)) : list Daily.Row :=
  match table_named "fct_daily_metrics" tables with
  | Some (TDaily rows) => rows
  | _ => []
  end.

Definition products_in (tables : list (string * Table)) : list Products.Row :=
  match table_named "fct_product_performance" tables with
  | Some (TProducts rows) => rows
  | _ => []
  end.





(** Every cell of the [timestamp] column is a datetime. *)
Definition is_datetime (r : Row) : Prop :=
  match timestamp r with
  | TsDatetime _ => True
  | TsStr _ => False
  end.

(** The dictionary [_transform] returns for a frame whose rows are [rows1]
    once the timestamps are datetimes. *)
Definition transformed_of (rows1 : list Row) : list (string * Table) :=
  [("fct_events", TEvents (enrich <$> rows1));
   ("fct_sessions", TSessions (fct_sessions_of rows1));
   ("fct_daily_metrics", TDaily (fct_daily_of (set_event_date <$> rows1)))]
  ++ match filter (λ r, is_Some (product_id r)) (set_event_date <$> rows1) with
     | [] => []
     | product_events =>
         [("fct_product_performance", TProducts (fct_products_of product_events))]
     end.

End Tables.

(** ** Concrete batches *)

Module Examples.
Import Validation Pipeline.
Local Open Scope string_scope.

(** An environment in which nothing fails: no string parses, the quality
    checker reports nothing, the storage accepts every write. *)
Definition quiet_runtime : Runtime := {|
  fromisoformat := λ _, None;
  json_loads := λ _, None;
  to_datetime := λ _, inl (ValueError (MsgText "unknown datetime string format"));
  run_all_checks := λ _, inr [];
  now := 0;
  connect_raises := None;
  to_parquet_raises := λ _, None;
  execute_raises := λ _, None
|}.


(** A well-formed raw event of user [USER_ABC123DEF456]. *)
Definition raw_event (id ty session : string) (t : Z) (product : option string)
    (revenue : Z) : RawEvent :=
  mkRaw (Some id) (Some ty) (Some "USER_ABC123DEF456") (Some session)
    (Some (RawDatetime t)) (Some (RawDict [])) (Some "mobile") (Some "US")
    (Some "organic") product (from_option (λ _, Some "Books") None product)
    (Some (Qc_of_Z revenue)).

(** The event of [test_valid_event]. *)
Definition valid_event : RawEvent :=
  raw_event "EVT_1234567890ABCDEF" "page_view" "SES_1234567890ABCDEF" 0 None 0.

(** The same event without its [session_id]. *)
Definition event_without_session : RawEvent :=
  mkRaw (Some "EVT_1234567890ABCDEF") (Some "page_view")
    (Some "USER_ABC123DEF456") None (Some (RawDatetime 0)) (Some (RawDict []))
    (Some "mobile") (Some "US") (Some "organic") None None (Some 0%Qc).

(** An event whose identifier does not match the pattern. *)
Definition invalid_event : RawEvent :=
  raw_event "invalid_id" "page_view" "SES_1234567890ABCDEF" 0 None 0.

(** One session around midnight: a page view at 23:59:59 of day 0 and a
    purchase of 50 at 00:00:01 of day 1. *)
Definition midnight_batch : list RawEvent :=
  [raw_event "EVT_0000000000000001" "page_view" "SES_00000000000000AA"
     86399000000 None 0;
   raw_event "EVT_0000000000000002" "purchase" "SES_00000000000000AA"
     86401000000 None 50].

(** Two sessions on two days, each within its day. *)
Definition two_day_batch : list RawEvent :=
  [raw_event "EVT_0000000000000001" "product_view" "SES_00000000000000AA"
     36000000000 (Some "PROD_12345678") 0;
   raw_event "EVT_0000000000000002" "purchase" "SES_00000000000000AA"
     37500000000 None 50;
   raw_event "EVT_0000000000000003" "purchase" "SES_00000000000000BB"
     126000000000 None 20].


(** Four valid events and an invalid one: a validity rate of 80. *)
Definition mostly_valid_batch : list RawEvent :=
  [valid_event; valid_event; invalid_event; valid_event; valid_event].

(** The frame [validate_events] builds from a batch. *)
Definition validated `{!Runtime} (batch : list RawEvent) : Frame.DataFrame :=
  match validate_events batch default_raise_on_error default_sample_errors with
  | inr (valid_df, _) => valid_df
  | inl _ => Frame.NoColumns
  end.

(** The rows of a frame. *)
Definition rows_of (df : Frame.DataFrame) : list Frame.Row :=
  match df with
  | Frame.NoColumns => []
  | Frame.Events rows => rows
  end.

(** A pipeline after validation: connected, holding one frame. *)
Definition holding `{!Runtime} (df : Frame.DataFrame) : ETLPipeline :=
  mkPipeline (default_config "data/raw" "data/processed" "data/analytics.duckdb")
    (mkMetrics now None 0 0 0 0%Qc [] []) Open [] ∅ ∅ [df] [].

(** A new pipeline with the default configuration and one source file. *)
Definition pipeline_on `{!Runtime} (batch : list RawEvent) : ETLPipeline :=
  new_pipeline (default_config "data/raw" "data/processed" "data/analytics.duckdb")
    [batch] ∅ ∅.

End Examples.

(** ** Totals over the tables of [_transform] *)

Module Grains.
Import Frame Aggregate Tables.
Local Open Scope string_scope.

(** The sum of a column of counts. *)
Definition totalZ (l : list Z) : Z := foldr Z.add 0 l.

Definition events_in (tables : list (string * Table)) : list Row :=
  match table_named "fct_events" tables with
  | Some (TEvents rows) => rows
  | _ => []
  end.

(** The grouping key of a row of [fct_sessions] and of
    [fct_product_performance]. *)
Definition session_key_of (s : Sessions.Row) : string * string :=
  (Sessions.session_id s, Sessions.user_id s).

Definition product_key_of (pr : Products.Row) : string * string :=
  (Products.product_id pr, Products.category pr).

End Grains.

(** ** The report of a run ([PipelineMetrics]) *)

Module Metrics.
Import Pipeline.

(** The property [duration_seconds]. *)
Definition duration_seconds (self : PipelineMetrics) : Qc :=
  match end_time self with
  | None => 0%Qc
  | Some t => total_seconds (t - start_time self)
  end.

(** The dictionary of [to_dict]; the two times are kept as datetimes
    instead of their ISO text. *)
Record MetricsDict := mkDict {
  d_start_time : Z;
  d_end_time : option Z;
  d_duration_seconds : Qc;
  d_records_extracted : Z;
  d_records_validated : Z;
  d_records_loaded : Z;
  d_validity_rate : Qc;
  quality_issues_count : Z;
  errors_count : Z
}.

Definition to_dict (self : PipelineMetrics) : MetricsDict :=
  mkDict (start_time self) (end_time self) (duration_seconds self)
    (records_extracted self) (records_validated self) (records_loaded self)
    (validity_rate self) (Z.of_nat (length (quality_issues self)))
    (Z.of_nat (length (errors self))).

End Metrics.

(** ** What a method leaves in the report *)

Module Effects.
Import Pipeline.

(** The outcome of a method run on [p] satisfies [Qok] when it returns
    and [Qerr] when it raises. *)
Definition post {A} (m : M A) (p : ETLPipeline)
    (Qok : A → ETLPipeline → Prop) (Qerr : exn → ETLPipeline → Prop) : Prop :=
  match m p with
  | (inr x, q) => Qok x q
  | (inl e, q) => Qerr e q
  end.

(** The errors and the start time of the metrics are those of [p]. *)
Definition same_report (p q : ETLPipeline) : Prop :=
  errors (metrics q) = errors (metrics p)
  ∧ start_time (metrics q) = start_time (metrics p).

(** The errors are those of [p], with at most the message of [e] added. *)
Definition failed_report (p : ETLPipeline) (e : exn) (q : ETLPipeline) : Prop :=
  (errors (metrics q) = errors (metrics p)
   ∨ errors (metrics q) = errors (metrics p) ++ [str e])
  ∧ start_time (metrics q) = start_time (metrics p).

Definition reports {A} (m : M A) : Prop :=
  ∀ p, post m p (λ _ q, same_report p q) (failed_report p).

End Effects.

(** ** More environments *)

Module Environments.
Local Open Scope string_scope.

(** An environment in which the database cannot be opened. *)
Definition no_database_runtime : Runtime := {|
  fromisoformat := λ _, None;
  json_loads := λ _, None;
  to_datetime := λ _, inl (ValueError (MsgText "unknown datetime string format"));
  run_all_checks := λ _, inr [];
  now := 0;
  connect_raises := Some (Exn "IOException" (MsgText "Cannot open file"));
  to_parquet_raises := λ _, None;
  execute_raises := λ _, None
|}.

(** A new pipeline whose configuration sets [min_validity_rate] to 0. *)
Definition without_threshold `{!Runtime} (batch : list Validation.RawEvent) :
    Pipeline.ETLPipeline :=
  Pipeline.new_pipeline
    (Pipeline.mkConfig "data/raw" "data/processed" "data/analytics.duckdb"
       0%Qc true 4)
    [batch] ∅ ∅.

End Environments.

(** ** Quality checks ([DataQualityChecker]) *)

Module Quality.
Import Frame.
Local Open Scope string_scope.

(** The message of an issue, [f"Found {n} {what}"], with its number kept. *)
Inductive text := Found (n : Z) (what : string).

(** An entry of [self.issues] with the keys [check], [severity], [count]
    and [message]. *)
Record Issue := mkIssue {
  i_check : string;
  i_severity : string;
  i_count : Z;
  i_message : text
}.

(** The checker: the frame it was built on and the issues found so far.  A
    check returns the checker, which the model passes on. *)
Record DataQualityChecker := mkChecker {
  df : DataFrame;
  issues : list Issue
}.

(** [DataQualityChecker(events_df)] *)
Definition new (events_df : DataFrame) : DataQualityChecker :=
  mkChecker events_df [].

(** [df[df.duplicated(subset=["event_id"], keep=False)]]: every row whose
    [event_id] occurs more than once. *)
Definition duplicated (rows : list Row) : list Row :=
  filter (λ r, (1 < length (filter (λ r', event_id r' = event_id r) rows))%nat)
    rows.

(** [check_duplicates]; a frame without the column raises [KeyError]. *)
Definition check_duplicates (self : DataQualityChecker)
    : exn + DataQualityChecker :=
  match df self with
  | NoColumns => inl (KeyError "event_id")
  | Events rows =>
      let duplicates := duplicated rows in
      if decide (Z.of_nat (length duplicates) > 0) then
        inr (mkChecker (df self)
               (issues self
                ++ [mkIssue "duplicates" "high" (Z.of_nat (length duplicates))
                      (Found (Z.of_nat (length duplicates))
                         "duplicate event IDs")]))
      else inr self
  end.




(** A frame of the test suite with [EVT_1] repeated, and a frame with one
    session of 1001 events. *)
Definition event_row (id session : string) (t : Z) : Row :=
  mkRow id PAGE_VIEW "USER_ABC123DEF456" session (TsDatetime t) (JDict [])
    None None None None None 0%Qc None None None None.

Definition repeated_ids : list Row :=
  [event_row "EVT_1" "SES_1" 0; event_row "EVT_2" "SES_1" 0;
   event_row "EVT_3" "SES_2" 86400000000; event_row "EVT_1" "SES_1" 0].


End Quality.

(** ** The product and user schemas ([ProductSchema], [UserSchema]) *)

Module Catalog.
Local Open Scope string_scope.

(** A row of the product frame, with the convention of [RawEvent]: [None]
    is a key that is absent or null. *)
Record RawProduct := mkRawProduct {
  raw_product_id : option string;
  raw_product_name : option string;
  raw_category : option string;
  raw_subcategory : option string;
  raw_price : option Qc;
  raw_brand : option string;
  raw_rating : option Qc;
  raw_review_count : option Z;
  raw_in_stock : option bool
}.

Record Product := mkProduct {
  product_id : string;
  product_name : string;
  category : string;
  subcategory : option string;
  price : Qc;
  brand : option string;
  rating : option Qc;
  review_count : option Z;
  in_stock : bool
}.

(** [Field(..., gt=0, le=100000)] *)
Definition check_price (x : Qc) : option Qc :=
  if bool_decide (0 < x)%Qc && bool_decide (x ≤ Qc_of_Z 100000)%Qc
  then Some x else None.

(** [Field(None, ge=0.0, le=5.0)] *)
Definition check_rating (x : Qc) : option Qc :=
  if bool_decide (0 ≤ x)%Qc && bool_decide (x ≤ Qc_of_Z 5)%Qc
  then Some x else None.

(** [Field(None, ge=0)] and [Field(default=0.0, ge=0.0)] *)
Definition check_count (n : Z) : option Z :=
  if bool_decide (0 ≤ n)%Z then Some n else None.

Definition check_nonneg (x : Qc) : option Qc :=
  if bool_decide (0 ≤ x)%Qc then Some x else None.

Definition ProductSchema (r : RawProduct) : exn + Product :=
  let f_product_id :=
    Validation.required
      (Validation.check_str None None (Some (Validation.matches "PROD_" 8)))
      (raw_product_id r) in
  let f_product_name :=
    Validation.required (Validation.check_str (Some 1%nat) (Some 200%nat) None)
      (raw_product_name r) in
  let f_category :=
    Validation.required (Validation.check_str (Some 1%nat) (Some 100%nat) None)
      (raw_category r) in
  let f_subcategory :=
    Validation.optional (λ v, Some <$> Validation.check_str None None None v)
      None (raw_subcategory r) in
  let f_price := Validation.required check_price (raw_price r) in
  let f_brand :=
    Validation.optional (λ v, Some <$> Validation.check_str None None None v)
      None (raw_brand r) in
  let f_rating :=
    Validation.optional (λ v, Some <$> check_rating v) None (raw_rating r) in
  let f_review_count :=
    Validation.optional (λ v, Some <$> check_count v) None
      (raw_review_count r) in
  let f_in_stock := Validation.optional Some true (raw_in_stock r) in
  match f_product_id, f_product_name, f_category, f_subcategory, f_price,
        f_brand, f_rating, f_review_count, f_in_stock with
  | Some a, Some b, Some c, Some d, Some e, Some f, Some g, Some h, Some i =>
      inr (mkProduct a b c d e f g h i)
  | _, _, _, _, _, _, _, _, _ =>
      inl (ValidationError
             (Validation.failed "product_id" f_product_id
              ++ Validation.failed "product_name" f_product_name
              ++ Validation.failed "category" f_category
              ++ Validation.failed "subcategory" f_subcategory
              ++ Validation.failed "price" f_price
              ++ Validation.failed "brand" f_brand
              ++ Validation.failed "rating" f_rating
              ++ Validation.failed "review_count" f_review_count
              ++ Validation.failed "in_stock" f_in_stock))
  end.

(** A row of the user frame.  [created_at] is a datetime already. *)
Record RawUser := mkRawUser {
  raw_user_id : option string;
  raw_segment : option string;
  raw_primary_device : option string;
  raw_traffic_source : option string;
  raw_country : option string;
  raw_city : option string;
  raw_created_at : option Z;
  raw_is_subscribed : option bool;
  raw_lifetime_value : option Qc
}.

Record User := mkUser {
  user_id : string;
  segment : string;
  primary_device : DeviceType;
  traffic_source : TrafficSource;
  country : string;
  city : option string;
  created_at : Z;
  is_subscribed : bool;
  lifetime_value : Qc
}.

(** [Literal["power_buyer", "browser", "occasional", "new_user"]] *)
Definition segments : list string :=
  ["power_buyer"; "browser"; "occasional"; "new_user"].

Definition check_segment (v : string) : option string :=
  if decide (v ∈ segments) then Some v else None.

Definition UserSchema (r : RawUser) : exn + User :=
  let f_user_id :=
    Validation.required
      (Validation.check_str None None (Some (Validation.matches "USER_" 12)))
      (raw_user_id r) in
  let f_segment := Validation.required check_segment (raw_segment r) in
  let f_primary_device :=
    Validation.required (by_value DeviceType_members) (raw_primary_device r) in
  let f_traffic_source :=
    Validation.required (by_value TrafficSource_members)
      (raw_traffic_source r) in
  let f_country :=
    Validation.required (Validation.check_str (Some 2%nat) (Some 2%nat) None)
      (raw_country r) in
  let f_city :=
    Validation.optional (λ v, Some <$> Validation.check_str None None None v)
      None (raw_city r) in
  let f_created_at := Validation.required Some (raw_created_at r) in
  let f_is_subscribed := Validation.optional Some false (raw_is_subscribed r) in
  let f_lifetime_value :=
    Validation.optional check_nonneg 0%Qc (raw_lifetime_value r) in
  match f_user_id, f_segment, f_primary_device, f_traffic_source, f_country,
        f_city, f_created_at, f_is_subscribed, f_lifetime_value with
  | Some a, Some b, Some c, Some d, Some e, Some f, Some g, Some h, Some i =>
      inr (mkUser a b c d e f g h i)
  | _, _, _, _, _, _, _, _, _ =>
      inl (ValidationError
             (Validation.failed "user_id" f_user_id
              ++ Validation.failed "segment" f_segment
              ++ Validation.failed "primary_device" f_primary_device
              ++ Validation.failed "traffic_source" f_traffic_source
              ++ Validation.failed "country" f_country
              ++ Validation.failed "city" f_city
              ++ Validation.failed "created_at" f_created_at
              ++ Validation.failed "is_subscribed" f_is_subscribed
              ++ Validation.failed "lifetime_value" f_lifetime_value))
  end.





(** The product and the user of the test suite. *)
Definition test_product (price : Z) : RawProduct :=
  mkRawProduct (Some "PROD_12345678") (Some "Test Product")
    (Some "Electronics") None (Some (Qc_of_Z price)) None None None None.

Definition test_user (segment : string) : RawUser :=
  mkRawUser (Some "USER_ABC123DEF456") (Some segment) (Some "mobile")
    (Some "organic") (Some "US") None (Some 0) None None.

End Catalog.

(** ** The command line ([main]) *)

Module Cli.
Import Pipeline.
Local Open Scope string_scope.






End Cli.

(** ** Helper functions ([utils.py]) *)

Module Utils.
Import Frame.
Local Open Scope string_scope.











(** [isinstance(v, dict)] *)
Definition is_dict (v : json) : bool :=
  match v with
  | JDict _ => true
  | _ => false
  end.

(** [dict(items)]: a later item replaces the value of an earlier item with
    the same key, which keeps its place. *)
Fixpoint dict_set (k : string) (v : json) (d : list (string * json))
    : list (string * json) :=
  match d with
  | [] => [(k, v)]
  | (k', v') :: rest =>
      if decide (k' = k) then (k, v) :: rest else (k', v') :: dict_set k v rest
  end.

Definition dict (items : list (string * json)) : list (string * json) :=
  foldl (λ d kv, dict_set kv.1 kv.2 d) [] items.

(** [f"{parent_key}{sep}{k}" if parent_key else k] *)
Definition new_key (parent_key sep k : string) : string :=
  if decide (parent_key = EmptyString) then k else parent_key +:+ sep +:+ k.

(** [flatten_dict(v, parent_key, sep)] for a dictionary [v]; the inner
    function is the loop over [d.items()]. *)
Fixpoint flatten (v : json) (parent_key sep : string) {struct v}
    : list (string * json) :=
  match v with
  | JDict d =>
      dict ((fix items (d : list (string * json)) : list (string * json) :=
               match d with
               | [] => []
               | (k, v) :: rest =>
                   ((if is_dict v then flatten v (new_key parent_key sep k) sep
                     else [(new_key parent_key sep k, v)])
                    ++ items rest)%list
               end) d)
  | _ => []
  end.

Definition flatten_dict (d : list (string * json)) (parent_key sep : string)
    : list (string * json) :=
  flatten (JDict d) parent_key sep.

End Utils.

(** ** The table of open sessions *)

Module SessionTable.
Import Generator.

(** No two users of the table share a session identifier. *)
Definition ids_distinct (g : EventGenerator) : Prop :=
  ∀ u v s s', active_sessions g !! u = Some s → active_sessions g !! v = Some s' →
    session_id s = session_id s' → u = v.

End SessionTable.

(** * Properties *)

(** ** Sessionization *)

Section GeneratorFacts.
Import Generator.

Lemma get_or_create_timeout g u t :
  session_timeout_minutes (_get_or_create_session g u t).2
  = session_timeout_minutes g.
Proof.
  unfold _get_or_create_session, create_session.
  destruct (active_sessions g !! u); [case_decide|]; reflexivity.
Qed.

Lemma get_or_create_draws g u t :
  (uuid_draws g ≤ uuid_draws (_get_or_create_session g u t).2)%nat.
Proof.
  unfold _get_or_create_session, create_session.
  destruct (active_sessions g !! u); [case_decide|]; simpl; lia.
Qed.

Lemma get_or_create_other g u t v :
  u ≠ v →
  active_sessions (_get_or_create_session g u t).2 !! v = active_sessions g !! v.
Proof.
  intros Huv. unfold _get_or_create_session, create_session.
  destruct (active_sessions g !! u); [case_decide|]; simpl;
    by rewrite lookup_insert_ne.
Qed.

(** After a call the user's entry holds the identifier returned and the
    timestamp of the call, and the identifier was drawn. *)
Lemma get_or_create_entry g u t :
  ids_drawn g →
  ∃ s, active_sessions (_get_or_create_session g u t).2 !! u = Some s
       ∧ session_id s = (_get_or_create_session g u t).1
       ∧ last_activity s = t
       ∧ (session_id s < uuid_draws (_get_or_create_session g u t).2)%nat.
Proof.
  intros Hg. unfold _get_or_create_session, create_session.
  destruct (active_sessions g !! u) as [s|] eqn:Hs; [case_decide|]; simpl;
    rewrite lookup_insert_eq; eexists; (split; [reflexivity|]); simpl;
    repeat split; try lia.
  apply (Hg u s Hs).
Qed.

Lemma sessionize_others g u events :
  Forall (λ e, e.1 ≠ u) events →
  active_sessions (sessionize g events).2 !! u = active_sessions g !! u
  ∧ session_timeout_minutes (sessionize g events).2 = session_timeout_minutes g
  ∧ (uuid_draws g ≤ uuid_draws (sessionize g events).2)%nat.
Proof.
  intros H. revert g. induction H as [|[v t] rest Hv _ IH]; intros g; simpl.
  - repeat split; lia.
  - destruct (_get_or_create_session g v t) as [sid g1] eqn:E1.
    destruct (sessionize g1 rest) as [sids g2] eqn:E2. simpl.
    specialize (IH g1). rewrite E2 in IH. simpl in IH.
    destruct IH as (Ha & Hb & Hc).
    pose proof (get_or_create_other g v t u Hv) as Ho.
    pose proof (get_or_create_timeout g v t) as Ht.
    pose proof (get_or_create_draws g v t) as Hd.
    rewrite E1 in Ho, Ht, Hd. simpl in *.
    repeat split; [congruence|congruence|lia].
Qed.

(** The invariant holds initially and after every call, so it holds in
    every state the generator reaches. *)
Lemma ids_drawn_init : ids_drawn init.
Proof. intros u s Hs. simpl in Hs. by rewrite lookup_empty in Hs. Qed.

Lemma ids_drawn_step g u t :
  ids_drawn g → ids_drawn (_get_or_create_session g u t).2.
Proof.
  intros Hg v s. unfold _get_or_create_session, create_session.
  destruct (active_sessions g !! u) as [s0|] eqn:Hs0; [case_decide|]; simpl;
    (destruct (decide (u = v)) as [->|Hne];
     [rewrite lookup_insert_eq; intros [= <-]; simpl
     |rewrite lookup_insert_ne by done; intros Hv; specialize (Hg v s Hv)]);
    try lia.
  apply (Hg v s0 Hs0).
Qed.

Lemma ids_drawn_sessionize g events :
  ids_drawn g → ids_drawn (sessionize g events).2.
Proof.
  revert g. induction events as [|[u t] rest IH]; intros g Hg; [done|].
  simpl. pose proof (ids_drawn_step g u t Hg) as Hstep.
  destruct (_get_or_create_session g u t) as [sid g1].
  specialize (IH g1 Hstep). by destruct (sessionize g1 rest).
Qed.

(** C1 (amended).  Two consecutive events of one user, at [t1] and [t2],
    with any events of other users handled in between: the second event
    opens a new session if and only if the gap [t2 - t1] is at least the
    idle timeout (the code keeps the session while the gap is strictly below
    it), so a gap exactly equal to the timeout opens a new session. *)
Theorem new_session_iff_gap_reaches_timeout
    (g : EventGenerator) (u : string) (t1 t2 : Z) (others : list (string * Z)) :
  ids_drawn g →
  Forall (λ e, e.1 ≠ u) others →
  let r1 := _get_or_create_session g u t1 in
  let g2 := (sessionize r1.2 others).2 in
  let r2 := _get_or_create_session g2 u t2 in
  (r2.1 ≠ r1.1 ↔
     (Qc_of_Z (session_timeout_minutes g * 60) ≤ total_seconds (t2 - t1))%Qc)
  ∧ (total_seconds (t2 - t1) = Qc_of_Z (session_timeout_minutes g * 60)
     → r2.1 ≠ r1.1).
Proof.
  intros Hg Hothers r1 g2 r2.
  destruct (get_or_create_entry g u t1 Hg) as (s & Hs & Hid & Hla & Hlt).
  destruct (sessionize_others r1.2 u others Hothers) as (Ha & Hb & Hc).
  fold r1 in Hs, Hid, Hlt. fold g2 in Ha, Hb, Hc.
  assert (Htm : session_timeout_minutes g2 = session_timeout_minutes g).
  { rewrite Hb. apply get_or_create_timeout. }
  assert (Hiff : r2.1 ≠ r1.1 ↔
     (Qc_of_Z (session_timeout_minutes g * 60) ≤ total_seconds (t2 - t1))%Qc).
  { subst r2. unfold _get_or_create_session.
    rewrite Ha, Hs, Hla, Htm. case_decide as Hlt2; simpl.
    - split; [congruence|]. intros Hle. by apply Qcle_not_lt in Hle.
    - split; [intros _; by apply Qcnot_lt_le|]. intros _. lia. }
  split; [exact Hiff|].
  intros Heq. apply Hiff. rewrite Heq. apply Qcle_refl.
Qed.

(** The rule at a concrete run: from the initial generator, events of U1 at
    10:00:00 and 10:25:00 share a session and one at 10:55:00, exactly
    thirty minutes later, does not. *)
Lemma new_session_iff_gap_reaches_timeout_witness :
  let r1 := _get_or_create_session init "U1" 36000000000 in
  let g2 := (sessionize r1.2 [("U2"%string, 36600000000)]).2 in
  let r2 := _get_or_create_session g2 "U1" 37800000000 in
  (r2.1 ≠ r1.1 ↔
     (Qc_of_Z (session_timeout_minutes init * 60)
      ≤ total_seconds (37800000000 - 36000000000))%Qc)
  ∧ (total_seconds (37800000000 - 36000000000)
     = Qc_of_Z (session_timeout_minutes init * 60) → r2.1 ≠ r1.1).
Proof.
  apply (new_session_iff_gap_reaches_timeout init "U1" 36000000000 37800000000
           [("U2"%string, 36600000000)]).
  - apply ids_drawn_init.
  - repeat constructor. simpl. discriminate.
Defined.

(** The scenario of the specification: events of U1 at 10:00:00, 10:25:00
    and 11:00:00 fall into two sessions, the first with two events. *)
Example sessions_of_the_scenario :
  (sessionize init [("U1"%string, 36000000000); ("U1"%string, 37500000000);
                    ("U1"%string, 39600000000)]).1
  = [0%nat; 0%nat; 1%nat].
Proof. vm_compute. reflexivity. Qed.

(** C1 as the specification states it fails on the code: with the default
    timeout of 30 minutes, an event exactly 30 minutes after the previous
    event of the same user opens a new session, although the gap does not
    exceed the timeout. *)
Lemma gap_equal_to_timeout_splits :
  ¬ splits_iff_gap_exceeds init "U1" 36000000000 37800000000.
Proof.
  unfold splits_iff_gap_exceeds.
  destruct (_get_or_create_session init "U1" 36000000000) as [s1 g1] eqn:E1.
  destruct (_get_or_create_session g1 "U1" 37800000000) as [s2 g3] eqn:E2.
  vm_compute in E1. injection E1 as <- <-.
  vm_compute in E2. injection E2 as <- <-.
  intros [H _]. assert (Hne : 1%nat ≠ 0%nat) by lia.
  apply H in Hne. revert Hne. apply Qcle_not_lt. by vm_compute.
Qed.

End GeneratorFacts.

(** ** Grouping and sums *)

Section AggregateFacts.
Import Frame Aggregate Tables.





Lemma group_keys_NoDup {A K} `{EqDecision K} (le : K → K → Prop)
    `{∀ x y, Decision (le x y)} (key : A → option K) rows :
  NoDup (group_keys le key rows).
Proof.
  unfold group_keys. rewrite merge_sort_Permutation. apply NoDup_remove_dups.
Qed.

Lemma elem_of_group_keys {A K} `{EqDecision K} (le : K → K → Prop)
    `{∀ x y, Decision (le x y)} (key : A → option K) rows k :
  k ∈ group_keys le key rows ↔ ∃ r, r ∈ rows ∧ key r = Some k.
Proof.
  unfold group_keys.
  rewrite merge_sort_Permutation, elem_of_remove_dups. apply list_elem_of_omap.
Qed.








End AggregateFacts.

(** ** The Transform stage *)

Section TransformFacts.
Import Frame Aggregate Tables Pipeline.
Context `{!Runtime}.

(** [_transform] returns whenever the frame has the event columns and its
    timestamps can be read; it returns the tables of [transformed_of] and
    leaves the caller's frame with datetimes and an [event_date] column. *)
Lemma transform_returns (p : ETLPipeline) (df : nat) (rows rows1 : list Row) :
  heap p !! df = Some (Events rows) →
  to_datetime_column rows = inr rows1 →
  ∃ p', _transform df p = (inr (transformed_of rows1), p')
        ∧ heap p' = <[df := Events (set_event_date <$> rows1)]> (heap p)
        ∧ config p' = config p ∧ metrics p' = metrics p ∧ conn p' = conn p
        ∧ target_files p' = target_files p ∧ analytics p' = analytics p.
Proof.
  intros Hdf Hdt. eexists. unfold _transform.
  unfold mbind, M_bind, deref, logger, store, set_heap, modify, get, mret, M_ret.
  simpl. rewrite (list_lookup_total_correct _ _ _ Hdf), Hdt. simpl.
  split.
  { unfold transformed_of. by destruct (filter _ _). }
  simpl. by rewrite list_insert_insert_eq.
Qed.

End TransformFacts.

(** ** Reconciliation of session and daily revenue *)

Section Reconciliation.
Import Frame Aggregate Tables Pipeline.







End Reconciliation.

(** ** The derived ratios *)

Section Ratios.
Import Frame Aggregate Tables Pipeline.






Lemma group_nonempty {A K} `{EqDecision K} (le : K → K → Prop)
    `{∀ x y, Decision (le x y)} (key : A → option K) rows k :
  k ∈ group_keys le key rows → group key k rows ≠ [].
Proof.
  intros (r & Hr & Hk)%elem_of_group_keys Hnil.
  assert (Hin : r ∈ group key k rows) by by apply list_elem_of_filter.
  rewrite Hnil in Hin. by apply elem_of_nil in Hin.
Qed.







End Ratios.

(** ** The event schema *)

Section SchemaFacts.
Import Validation.
Local Open Scope string_scope.



Lemma check_str_Some min_length max_length pattern v s :
  check_str min_length max_length pattern v = Some s →
  s = strip v ∧ from_option (λ p, p s) true pattern = true.
Proof.
  unfold check_str. case_match eqn:Hc; [|done]. intros [= <-].
  apply andb_prop in Hc as [_ Hp]. done.
Qed.

(** A record without [session_id] is rejected, and the error names the
    field. *)
Lemma missing_session_id_rejected `{!Runtime} (r : RawEvent) :
  raw_session_id r = None →
  ∃ fields, EventSchema r = inl (ValidationError fields)
            ∧ "session_id" ∈ fields.
Proof.
  intros Hnone. unfold EventSchema. rewrite Hnone. cbv zeta.
  change (required _ None) with (@None string).
  repeat case_match; eexists; (split; [reflexivity|]); set_solver.
Qed.

(** An accepted record carried a [session_id] that matches the pattern. *)
Lemma accepted_has_session_id `{!Runtime} (r : RawEvent) (ev : Event) :
  EventSchema r = inr ev →
  ∃ s, raw_session_id r = Some s ∧ session_id ev = strip s
       ∧ matches "SES_" 16 (strip s) = true.
Proof.
  intros Hok. destruct (raw_session_id r) as [s|] eqn:Hs.
  - exists s. split; [done|].
    unfold EventSchema in Hok. rewrite Hs in Hok. cbv zeta in Hok.
    change (required ?f (Some s)) with (f s) in Hok.
    destruct (check_str _ _ (Some (matches "SES_" 16)) s) as [d|] eqn:Hd.
    + apply check_str_Some in Hd as [-> Hpat]. simpl in Hpat.
      repeat case_match; simplify_eq; done.
    + repeat case_match; simplify_eq.
  - destruct (missing_session_id_rejected r Hs) as (fields & Hrej & _).
    congruence.
Qed.

(** C5 (amended).  The validator requires [session_id]: a record that
    lacks it is rejected, every accepted record carries one that matches
    [^SES_[A-F0-9]{16}$], and a record that carries such an identifier can
    pass. *)
Theorem session_id_is_required `{!Runtime} :
  (∀ r, raw_session_id r = None →
     ∃ fields, EventSchema r = inl (ValidationError fields)
               ∧ "session_id" ∈ fields)
  ∧ (∀ r ev, EventSchema r = inr ev →
       ∃ s, raw_session_id r = Some s ∧ session_id ev = strip s
            ∧ matches "SES_" 16 (strip s) = true)
  ∧ (∃ r ev, is_Some (raw_session_id r) ∧ EventSchema r = inr ev).
Proof.
  split; [apply missing_session_id_rejected|].
  split; [apply accepted_has_session_id|].
  exists Examples.valid_event. eexists. split; [by eexists|].
  vm_compute. reflexivity.
Qed.

(** The event of the test suite without its [session_id] is rejected; with
    it, it is accepted and keeps the identifier. *)
Lemma session_id_is_required_witness :
  (∃ fields,
     @EventSchema Examples.quiet_runtime Examples.event_without_session
     = inl (ValidationError fields)
     ∧ "session_id" ∈ fields)
  ∧ (∃ s, raw_session_id Examples.valid_event = Some s
          ∧ matches "SES_" 16 (strip s) = true).
Proof.
  split.
  - apply (proj1 (@session_id_is_required Examples.quiet_runtime)).
    reflexivity.
  - destruct (proj1 (proj2 (@session_id_is_required Examples.quiet_runtime))
                Examples.valid_event
                (mkEvent "EVT_1234567890ABCDEF" PAGE_VIEW "USER_ABC123DEF456"
                   "SES_1234567890ABCDEF" 0 (JDict []) (Some MOBILE)
                   (Some "US") (Some ORGANIC) None None (Qc_of_Z 0)))
      as (s & Hs & _ & Hm).
    + vm_compute. reflexivity.
    + exists s. split; assumption.
Defined.

(** C5 as the specification states it fails on the code: the event of
    [test_valid_event] carries a [session_id] and is accepted. *)
Lemma supplied_session_id_accepted :
  ¬ @session_id_must_be_absent Examples.quiet_runtime.
Proof.
  intros [Hrej _].
  destruct (Hrej Examples.valid_event) as [e He]; [by eexists|].
  vm_compute in He. discriminate He.
Qed.

End SchemaFacts.

(** ** Batch validation *)

Section BatchFacts.
Import Validation.
Context `{!Runtime}.
Local Arguments EventSchema : simpl never.

Lemma count_errors_cons (ty : string) (r : RawEvent) (rows : list RawEvent) :
  count_errors ty (r :: rows)
  = (if decide (error_type_of r = Some ty) then 1 else 0) + count_errors ty rows.
Proof.
  unfold count_errors. rewrite filter_cons.
  destruct (decide (error_type_of r = Some ty)); simpl length; lia.
Qed.

Lemma valid_of_cons (r : RawEvent) (rows : list RawEvent) :
  valid_of (r :: rows)
  = match EventSchema r with
    | inr ev => ev :: valid_of rows
    | inl _ => valid_of rows
    end.
Proof.
  unfold valid_of. cbn [omap list_omap].
  by destruct (EventSchema r).
Qed.

Lemma count_errors_nonneg ty rows : 0 ≤ count_errors ty rows.
Proof. unfold count_errors. lia. Qed.

(** The effect of the [except] block on the counter and the samples of an
    error type. *)
Lemma record_error_summary idx e n st ty :
  l_error_summary (record_error idx e n st) !! ty
  = if decide (type_name e = ty)
    then Some (default 0 (l_error_summary st !! ty) + 1)
    else l_error_summary st !! ty.
Proof.
  unfold record_error. simpl. case_decide as Hty.
  - subst ty. by rewrite lookup_insert_eq.
  - by rewrite lookup_insert_ne.
Qed.

Lemma record_error_samples idx e n st ty :
  samples_len (record_error idx e n st) ty
  = if decide (type_name e = ty)
    then (if decide (samples_len st ty < n) then samples_len st ty + 1
          else samples_len st ty)
    else samples_len st ty.
Proof.
  unfold samples_len, record_error. simpl.
  destruct (decide (type_name e = ty)) as [<-|Hty].
  - destruct (l_error_samples st !! type_name e) as [old|] eqn:Hold; simpl.
    + rewrite Hold. simpl. case_decide.
      * rewrite lookup_insert_eq. simpl. rewrite length_app. simpl. lia.
      * by rewrite Hold.
    + rewrite lookup_insert_eq. simpl. case_decide.
      * rewrite lookup_insert_eq. simpl. lia.
      * rewrite lookup_insert_eq. done.
  - destruct (l_error_samples st !! type_name e) as [old|] eqn:Hold; simpl.
    + rewrite Hold. simpl. case_decide; by rewrite ?lookup_insert_ne.
    + rewrite lookup_insert_eq. simpl.
      case_decide; by rewrite ?lookup_insert_ne.
Qed.

(** Without fail-fast the loop runs to the end of the batch: it keeps the
    events of all valid rows, counts every invalid row under the type of
    its exception, and collects samples of a type until there are
    [sample_errors] of them. *)
Lemma validate_loop_isolates (rows : list RawEvent) :
  ∀ (idx n : Z) (st : Locals),
  ∃ st', validate_loop rows idx false n st = inr st'
    ∧ l_valid_records st' = l_valid_records st ++ valid_of rows
    ∧ (∀ ty, l_error_summary st' !! ty
             = if decide (count_errors ty rows = 0)
               then l_error_summary st !! ty
               else Some (default 0 (l_error_summary st !! ty)
                          + count_errors ty rows))
    ∧ (∀ ty, samples_len st' ty
             = Z.max (samples_len st ty)
                 (Z.min (samples_len st ty + count_errors ty rows) n)).
Proof.
  induction rows as [|r rows IH]; intros idx n st.
  - exists st. simpl. split; [done|]. split; [by rewrite app_nil_r|].
    split; intros ty; [done|]. unfold count_errors, samples_len. simpl. lia.
  - cbn [validate_loop]. destruct (EventSchema r) as [e|ev] eqn:E.
    + destruct (IH (idx + 1) n (record_error idx e n st))
        as (st' & Hrun & Hv & Hs & Hl).
      exists st'. split; [done|]. split; [|split].
      * rewrite Hv, valid_of_cons. by rewrite E.
      * intros ty. rewrite Hs, record_error_summary, count_errors_cons.
        unfold error_type_of. rewrite E.
        pose proof (count_errors_nonneg ty rows).
        destruct (decide (type_name e = ty)) as [->|Hne].
        -- rewrite (decide_True (P := Some ty = Some ty)) by done.
           rewrite (decide_False (P := 1 + _ = 0)) by lia.
           case_decide as Hzero; simpl; f_equal; lia.
        -- rewrite (decide_False (P := Some _ = Some ty)) by congruence.
           done.
      * intros ty. rewrite Hl, record_error_samples, count_errors_cons.
        unfold error_type_of. rewrite E.
        pose proof (count_errors_nonneg ty rows).
        destruct (decide (type_name e = ty)) as [->|Hne].
        -- rewrite (decide_True (P := Some ty = Some ty)) by done.
           case_decide; lia.
        -- rewrite (decide_False (P := Some _ = Some ty)) by congruence.
           lia.
    + destruct (IH (idx + 1) n
                  (mkLocals (l_valid_records st ++ [ev]) (l_invalid_indices st)
                     (l_error_summary st) (l_error_samples st)))
        as (st' & Hrun & Hv & Hs & Hl).
      exists st'. split; [done|]. split; [|split].
      * rewrite Hv, valid_of_cons, E. simpl. by rewrite <-app_assoc.
      * intros ty. rewrite Hs, count_errors_cons. unfold error_type_of.
        rewrite E. by rewrite (decide_False (P := None = Some ty)).
      * intros ty. rewrite Hl, count_errors_cons. unfold error_type_of.
        rewrite E. by rewrite (decide_False (P := None = Some ty)).
Qed.

(** In either mode: the loop raises only in fail-fast mode, and then the
    exception of a row of the batch; when it ends, every row was added to
    the valid records or to the invalid indices. *)
Lemma validate_loop_counts (rows : list RawEvent) :
  ∀ (idx n : Z) (raise_on_error : bool) (st : Locals),
  match validate_loop rows idx raise_on_error n st with
  | inr st' =>
      (length (l_valid_records st') + length (l_invalid_indices st')
       = length (l_valid_records st) + length (l_invalid_indices st)
         + length rows)%nat
  | inl e => raise_on_error = true ∧ ∃ r, r ∈ rows ∧ EventSchema r = inl e
  end.
Proof.
  induction rows as [|r rows IH]; intros idx n roe st; simpl; [lia|].
  destruct (EventSchema r) as [e|ev] eqn:E.
  - destruct roe.
    + split; [done|]. exists r. split; [left|done].
    + specialize (IH (idx + 1) n false (record_error idx e n st)).
      destruct (validate_loop _ _ _ _ _) as [e'|st'].
      * destruct IH as [? _]. done.
      * unfold record_error in IH. simpl in IH. rewrite length_app in IH.
        simpl in IH. lia.
  - specialize (IH (idx + 1) n roe
                  (mkLocals (l_valid_records st ++ [ev]) (l_invalid_indices st)
                     (l_error_summary st) (l_error_samples st))).
    destruct (validate_loop _ _ _ _ _) as [e'|st'].
    + destruct IH as [? (r' & Hr' & He')]. split; [done|].
      exists r'. split; [by right|done].
    + simpl in IH. rewrite length_app in IH. simpl in IH. lia.
Qed.

(** In fail-fast mode the first invalid row ends the loop. *)
Lemma validate_loop_fail_fast (rows : list RawEvent) :
  ∀ (idx n : Z) (st : Locals),
  (∃ r, r ∈ rows ∧ is_Some (error_type_of r)) →
  ∃ e, validate_loop rows idx true n st = inl e.
Proof.
  induction rows as [|r rows IH]; intros idx n st (r' & Hr' & Hbad).
  - by apply elem_of_nil in Hr'.
  - simpl. destruct (EventSchema r) as [e|ev] eqn:E; [by eexists|].
    apply IH. exists r'. split; [|done].
    apply elem_of_cons in Hr' as [->|?]; [|done].
    unfold error_type_of in Hbad. rewrite E in Hbad. by destruct Hbad.
Qed.

(** C8.  [validate_events] raises only when [raise_on_error] is set, which
    it is not by default, and then on an invalid record of the batch.
    Otherwise it returns: the frame holds the events of all valid records,
    every invalid record is counted in [error_summary] under the type of
    its exception, and for each type [min(count, sample_errors)] samples
    are collected, [sample_errors] being 5 by default. *)
Theorem invalid_records_are_isolated (df : list RawEvent) (sample_errors : Z) :
  default_raise_on_error = false ∧ default_sample_errors = 5
  ∧ (∀ raise_on_error e,
       validate_events df raise_on_error sample_errors = inl e →
       raise_on_error = true ∧ ∃ r, r ∈ df ∧ EventSchema r = inl e)
  ∧ ((∃ r, r ∈ df ∧ is_Some (error_type_of r)) →
     ∃ e, validate_events df true sample_errors = inl e)
  ∧ ∃ st,
      validate_loop df 0 false sample_errors no_locals = inr st
      ∧ validate_events df false sample_errors = inr (finish df st)
      ∧ (finish df st).1
        = match valid_of df with
          | [] => Frame.NoColumns
          | _ => Frame.Events (row_of_event <$> valid_of df)
          end
      ∧ (∀ ty, error_summary (finish df st).2 !! ty
               = if decide (count_errors ty df = 0) then None
                 else Some (count_errors ty df))
      ∧ (∀ ty, samples_len st ty
               = Z.max 0 (Z.min (count_errors ty df) sample_errors)).
Proof.
  split; [done|]. split; [done|]. split; [|split].
  - intros roe e Hraise. unfold validate_events in Hraise.
    pose proof (validate_loop_counts df 0 sample_errors roe no_locals) as Hc.
    destruct (validate_loop _ _ _ _ _) as [e'|st]; [|done].
    by simplify_eq.
  - intros Hbad.
    destruct (validate_loop_fail_fast df 0 sample_errors no_locals Hbad)
      as [e He].
    exists e. unfold validate_events. by rewrite He.
  - destruct (validate_loop_isolates df 0 sample_errors no_locals)
      as (st & Hrun & Hv & Hs & Hl).
    exists st. split; [done|]. split; [|split; [|split]].
    + unfold validate_events. by rewrite Hrun.
    + unfold finish. simpl. by rewrite Hv.
    + intros ty. simpl. rewrite Hs. simpl. rewrite lookup_empty. simpl.
      case_decide; [done|]. f_equal.
    + intros ty. rewrite Hl. unfold samples_len at 1 2. simpl.
      by rewrite lookup_empty.
Qed.

(** C9.  When [validate_events] returns, [valid_records +
    invalid_records] is [total_records], [total_records] is the number of
    rows of the input, and the returned frame has [valid_records] rows; it
    always returns unless [raise_on_error] is set. *)
Theorem validation_counts_add_up (df : list RawEvent) (raise_on_error : bool)
    (sample_errors : Z) :
  match validate_events df raise_on_error sample_errors with
  | inr (valid_df, result) =>
      valid_records result + invalid_records result = total_records result
      ∧ total_records result = Z.of_nat (length df)
      ∧ Frame.len valid_df = valid_records result
  | inl _ => raise_on_error = true
  end.
Proof.
  unfold validate_events.
  pose proof (validate_loop_counts df 0 sample_errors raise_on_error no_locals)
    as Hc.
  destruct (validate_loop _ _ _ _ _) as [e|st]; [by destruct Hc|].
  simpl in *. split; [lia|]. split; [done|].
  destruct (l_valid_records st); simpl; [done|].
  rewrite length_fmap. done.
Qed.

End BatchFacts.

(** The batch of four valid events and an invalid one: the call returns,
    the invalid event is counted once under [ValidationError] and sampled
    once, and the frame has the four valid events. *)
Lemma invalid_records_are_isolated_witness :
  ∃ st,
    @Validation.validate_loop Examples.quiet_runtime
      Examples.mostly_valid_batch 0 false 5 Validation.no_locals = inr st
    ∧ Validation.error_summary
        (@Validation.finish Examples.quiet_runtime
           Examples.mostly_valid_batch st).2 !! "ValidationError"%string
      = Some 1
    ∧ Validation.samples_len st "ValidationError" = 1
    ∧ Frame.len (@Validation.finish Examples.quiet_runtime
                   Examples.mostly_valid_batch st).1 = 4.
Proof.
  destruct (@invalid_records_are_isolated Examples.quiet_runtime
              Examples.mostly_valid_batch 5)
    as (_ & _ & _ & _ & st & Hrun & _ & Hdf & Hsum & Hlen).
  exists st. split; [exact Hrun|]. split; [|split].
  - rewrite Hsum. reflexivity.
  - rewrite Hlen. reflexivity.
  - rewrite Hdf. reflexivity.
Defined.

(** ** The frame of the caller *)

Section Mutation.
Import Frame Aggregate Tables Pipeline.

Lemma to_datetime_column_datetimes `{!Runtime} (rows rows1 : list Row) :
  to_datetime_column rows = inr rows1 → Forall is_datetime rows1.
Proof.
  revert rows1. induction rows as [|r rows IH]; intros rows1; simpl.
  - intros [= <-]. constructor.
  - destruct (match timestamp r with TsDatetime t => inr t | TsStr s => _ end)
      as [e|t]; [done|].
    destruct (to_datetime_column rows) as [e|rest]; [done|].
    intros [= <-]. constructor; [exact I|]. by apply IH.
Qed.

Lemma set_event_date_columns (r : Row) :
  timestamp (set_event_date r) = timestamp r
  ∧ event_date (set_event_date r) = Some (dt_date (ts r))
  ∧ ts (set_event_date r) = ts r.
Proof. done. Qed.

(** C10.  [_transform] changes the frame it is given, not a copy: when it
    returns, the object the caller holds has a [timestamp] column of
    datetimes and an [event_date] column with the date of each timestamp;
    so if that object had a timestamp that was not a datetime, or no
    [event_date], as the frame built by [validate_events] has not, it is
    not what it was before the call. *)
Theorem transform_mutates_the_validated_frame `{!Runtime} (p : ETLPipeline)
    (df : nat) (rows rows1 : list Row) :
  heap p !! df = Some (Events rows) →
  to_datetime_column rows = inr rows1 →
  ∃ tables p', _transform df p = (inr tables, p')
    ∧ heap p' !! df = Some (Events (set_event_date <$> rows1))
    ∧ (∀ r, r ∈ set_event_date <$> rows1 →
         is_datetime r ∧ event_date r = Some (dt_date (ts r)))
    ∧ ((∃ r, r ∈ rows ∧ (event_date r = None ∨ ¬ is_datetime r)) →
       heap p' !! df ≠ heap p !! df).
Proof.
  intros Hdf Hdt.
  destruct (transform_returns p df rows rows1 Hdf Hdt)
    as (p' & Hrun & Hheap & _).
  pose proof (to_datetime_column_datetimes rows rows1 Hdt) as Hall.
  assert (Hnew : heap p' !! df = Some (Events (set_event_date <$> rows1))).
  { rewrite Hheap. apply list_lookup_insert_eq. by eapply lookup_lt_Some. }
  assert (Hcols : ∀ r, r ∈ set_event_date <$> rows1 →
                       is_datetime r ∧ event_date r = Some (dt_date (ts r))).
  { intros r (r1 & -> & Hr1)%list_elem_of_fmap. split; [|done].
    rewrite Forall_forall in Hall. exact (Hall r1 Hr1). }
  exists (transformed_of rows1), p'. repeat split; try done.
  - by apply Hcols.
  - by apply Hcols.
  - intros (r & Hr & Hold) Hsame. rewrite Hnew, Hdf in Hsame.
    injection Hsame as Hsame. rewrite <-Hsame in Hr.
    destruct (Hcols r Hr) as [Hdate Hcol]. destruct Hold as [Hold|Hold].
    + congruence.
    + done.
Qed.

(** The frame [validate_events] builds from two days of events has no
    [event_date] before the call and has one after it. *)
Lemma transform_mutates_the_validated_frame_witness :
  ∃ tables p',
    @_transform Examples.quiet_runtime 0
      (@Examples.holding Examples.quiet_runtime
         (@Examples.validated Examples.quiet_runtime Examples.two_day_batch))
    = (inr tables, p')
    ∧ heap p' !! 0%nat
      ≠ heap (@Examples.holding Examples.quiet_runtime
                (@Examples.validated Examples.quiet_runtime
                   Examples.two_day_batch)) !! 0%nat.
Proof.
  destruct (@transform_mutates_the_validated_frame Examples.quiet_runtime
              (@Examples.holding Examples.quiet_runtime
                 (@Examples.validated Examples.quiet_runtime
                    Examples.two_day_batch)) 0
              (Examples.rows_of
                 (@Examples.validated Examples.quiet_runtime
                    Examples.two_day_batch))
              (Examples.rows_of
                 (@Examples.validated Examples.quiet_runtime
                    Examples.two_day_batch)))
    as (tables & p' & Hrun & _ & _ & Hchanged).
  - reflexivity.
  - vm_compute. reflexivity.
  - exists tables, p'. split; [exact Hrun|]. apply Hchanged.
    eexists. split; [vm_compute; left|]. left. reflexivity.
Defined.

End Mutation.

(** ** The run *)

Section RunFacts.
Import Frame Aggregate Tables Pipeline.
Local Open Scope string_scope.
Local Arguments Validation.validate_events : simpl never.
Local Arguments concat : simpl never.
Local Arguments log_issues : simpl never.





(** Logging the high-severity issues only extends the log. *)
Lemma log_issues_returns (issues : list QualityIssue) (p : ETLPipeline) :
  ∃ lines,
    log_issues issues p
    = (inr (), mkPipeline (config p) (metrics p) (conn p) (source_files p)
                 (target_files p) (analytics p) (heap p) (log p ++ lines)).
Proof.
  revert p. induction issues as [|i issues IH]; intros p.
  - exists []. rewrite app_nil_r. by destruct p.
  - destruct (IH (mkPipeline (config p) (metrics p) (conn p) (source_files p)
                   (target_files p) (analytics p) (heap p)
                   (log p ++ [issue_message i]))) as [lines Hlines].
    exists (issue_message i :: lines). unfold log_issues in *. cbn [foldr].
    unfold mbind at 1, M_bind at 1, logger at 1, modify at 1.
    cbv beta iota. rewrite Hlines. simpl. by rewrite <-app_assoc.
Qed.


(** [run] is the stages before [_load], then [_load] and the end of the
    [try] block. *)
Lemma run_try_after_before_load `{!Runtime} (p p1 : ETLPipeline)
    (tables : list (string * Table)) :
  before_load p = (inr tables, p1) →
  (logger "STARTING ETL PIPELINE";; run_try) p
  = (_load tables;; set_end_time;; logger "PIPELINE COMPLETED SUCCESSFULLY") p1.
Proof.
  intros Hpre. unfold before_load in Hpre. unfold run_try.
  unfold mbind, M_bind in *.
  destruct (logger "STARTING ETL PIPELINE" p) as [[e|[]] q0]; [done|].
  destruct (_setup_database q0) as [[e|[]] q1]; [done|].
  destruct (_extract q1) as [[e|raw_df] q2]; [done|].
  destruct (_validate raw_df q2) as [[e|valid_df] q3]; [done|].
  destruct (_run_quality_checks valid_df q3) as [[e|[]] q4]; [done|].
  by rewrite Hpre.
Qed.





End RunFacts.

(** ** Totals across the grains *)

Section GrainFacts.
Import Frame Aggregate Tables Pipeline Grains.

Lemma totalZ_cons x l : totalZ (x :: l) = x + totalZ l.
Proof. reflexivity. Qed.

Lemma totalZ_zeros {A} (l : list A) : totalZ ((λ _, 0) <$> l) = 0.
Proof. induction l as [|x l IH]; [done|]. by rewrite fmap_cons, totalZ_cons, IH. Qed.

Lemma totalZ_plus {A} (f g : A → Z) (l : list A) :
  totalZ ((λ x, f x + g x) <$> l) = totalZ (f <$> l) + totalZ (g <$> l).
Proof.
  induction l as [|x l IH]; [done|].
  rewrite !fmap_cons, !totalZ_cons, IH. lia.
Qed.

Lemma totalZ_select `{EqDecision K} (k0 : K) (v : Z) (ks : list K) :
  NoDup ks →
  totalZ ((λ k, if decide (k0 = k) then v else 0) <$> ks)
  = if decide (k0 ∈ ks) then v else 0.
Proof.
  induction 1 as [|k ks Hk _ IH]; [done|].
  rewrite fmap_cons, totalZ_cons, IH.
  destruct (decide (k0 = k)) as [->|Hne].
  - rewrite decide_False by done. rewrite decide_True by apply list_elem_of_here. lia.
  - destruct (decide (k0 ∈ ks)) as [Hin|Hnin].
    + rewrite decide_True by (by apply list_elem_of_further). lia.
    + rewrite decide_False; [lia|]. rewrite elem_of_cons. tauto.
Qed.

(** Counting over the groups of some keys counts the rows with those
    keys. *)
Lemma totalZ_of_groups {A K} `{EqDecision K} (f : A → Z) (key : A → option K)
    (ks : list K) (rows : list A) :
  NoDup ks →
  totalZ ((λ k, totalZ (f <$> group key k rows)) <$> ks)
  = totalZ (f <$> filter (key_among key ks) rows).
Proof.
  intros Hks. induction rows as [|r rows IH].
  - simpl. apply totalZ_zeros.
  - transitivity
      (totalZ ((λ k, (if decide (key r = Some k) then f r else 0)
                     + totalZ (f <$> group key k rows)) <$> ks)).
    { f_equal. apply list_fmap_ext. intros _ k _. unfold group.
      rewrite filter_cons. by destruct (decide (key r = Some k)). }
    rewrite totalZ_plus, IH. rewrite filter_cons.
    destruct (key r) as [k0|] eqn:Hk0.
    + erewrite (list_fmap_ext _ (λ k, if decide (k0 = k) then f r else 0));
        [|intros _ k _; destruct (decide (Some k0 = Some k)), (decide (k0 = k));
          congruence].
      rewrite totalZ_select by done.
      destruct (decide (k0 ∈ ks)) as [Hin|Hnin].
      * rewrite decide_True by (exists k0; by rewrite Hk0). reflexivity.
      * rewrite decide_False; [lia|]. intros (k & Hk & ?). rewrite Hk0 in Hk.
        by simplify_eq.
    + erewrite (list_fmap_ext _ (λ _, 0));
        [|intros _ k _; by rewrite decide_False].
      rewrite totalZ_zeros, decide_False; [lia|]. intros (k & Hk & _).
      rewrite Hk0 in Hk. done.
Qed.

(** When every row has a key, the groups of all keys hold all rows. *)
Lemma filter_all_keys {A K} `{EqDecision K} (le : K → K → Prop)
    `{∀ x y, Decision (le x y)} (key : A → option K) (rows : list A) :
  (∀ r, r ∈ rows → is_Some (key r)) →
  filter (key_among key (group_keys le key rows)) rows = rows.
Proof.
  intros Hkey.
  assert (Hall : ∀ r, r ∈ rows → key_among key (group_keys le key rows) r).
  { intros r Hr. destruct (Hkey r Hr) as [k Hk]. exists k. split; [done|].
    apply elem_of_group_keys. eauto. }
  clear Hkey. revert Hall. generalize (group_keys le key rows). intros ks.
  induction rows as [|r rows IH]; intros Hall; [done|].
  rewrite filter_cons, decide_True by (apply Hall; left).
  f_equal. apply IH. intros r' Hr'. apply Hall. by right.
Qed.

Lemma length_as_totalZ {A} (l : list A) :
  Z.of_nat (length l) = totalZ ((λ _, 1) <$> l).
Proof.
  induction l as [|x l IH]; [done|].
  rewrite fmap_cons, totalZ_cons, <-IH. simpl length. lia.
Qed.

Lemma count_type_as_totalZ ty (l : list Row) :
  count_type ty l
  = totalZ ((λ r, if decide (event_type r = ty) then 1 else 0) <$> l).
Proof.
  unfold count_type. induction l as [|x l IH]; [done|].
  rewrite fmap_cons, totalZ_cons, <-IH, filter_cons.
  destruct (decide (event_type x = ty)); simpl length; lia.
Qed.

(** Over all sessions, and over all dates, a column of the events adds up
    to its total over the events. *)
Lemma sessions_total (f : Row → Z) (rows : list Row) :
  totalZ ((λ k, totalZ (f <$> group session_key k rows))
            <$> group_keys pair_le session_key rows)
  = totalZ (f <$> rows).
Proof.
  rewrite totalZ_of_groups by apply group_keys_NoDup.
  rewrite filter_all_keys; [done|]. intros r _. by eexists.
Qed.

Lemma daily_total (f : Row → Z) (rows : list Row) :
  (∀ r, f (set_event_date r) = f r) →
  totalZ ((λ d, totalZ (f <$> group event_date d (set_event_date <$> rows)))
            <$> group_keys Z.le event_date (set_event_date <$> rows))
  = totalZ (f <$> rows).
Proof.
  intros Hf. rewrite totalZ_of_groups by apply group_keys_NoDup.
  rewrite filter_all_keys.
  - rewrite <-list_fmap_compose. apply (f_equal totalZ), list_fmap_ext.
    intros _ r _. apply Hf.
  - intros r (r0 & -> & _)%list_elem_of_fmap. by eexists.
Qed.





(** X2.  Every event is counted once in each grain: [fct_events] has a row
    per event, and over all sessions as over all dates the event counts
    add up to the number of events, and the page views, product views,
    cart additions and purchases to the number of events of that type. *)
Theorem event_counts_are_conserved `{!Runtime} (p : ETLPipeline) (df : nat)
    (rows rows1 : list Row) :
  heap p !! df = Some (Events rows) →
  to_datetime_column rows = inr rows1 →
  ∃ tables p', _transform df p = (inr tables, p')
    ∧ length (events_in tables) = length rows1
    ∧ totalZ (Sessions.event_count <$> sessions_in tables)
      = Z.of_nat (length rows1)
    ∧ totalZ (Daily.total_events <$> daily_in tables) = Z.of_nat (length rows1)
    ∧ totalZ (Sessions.page_views <$> sessions_in tables)
      = count_type PAGE_VIEW rows1
    ∧ totalZ (Daily.page_views <$> daily_in tables) = count_type PAGE_VIEW rows1
    ∧ totalZ (Sessions.product_views <$> sessions_in tables)
      = count_type PRODUCT_VIEW rows1
    ∧ totalZ (Daily.product_views <$> daily_in tables)
      = count_type PRODUCT_VIEW rows1
    ∧ totalZ (Sessions.add_to_carts <$> sessions_in tables)
      = count_type ADD_TO_CART rows1
    ∧ totalZ (Daily.add_to_carts <$> daily_in tables)
      = count_type ADD_TO_CART rows1
    ∧ totalZ (Sessions.purchases <$> sessions_in tables)
      = count_type PURCHASE rows1
    ∧ totalZ (Daily.purchases <$> daily_in tables) = count_type PURCHASE rows1.
Proof.
  intros Hdf Hdt.
  destruct (transform_returns p df rows rows1 Hdf Hdt) as (p' & Hrun & _).
  exists (transformed_of rows1), p'. split; [done|].
  assert (Hs : sessions_in (transformed_of rows1) = fct_sessions_of rows1) by done.
  assert (Hd : daily_in (transformed_of rows1)
               = fct_daily_of (set_event_date <$> rows1)) by done.
  assert (He : events_in (transformed_of rows1) = enrich <$> rows1) by done.
  rewrite Hs, Hd, He. unfold fct_sessions_of, fct_daily_of.
  rewrite <-!list_fmap_compose.
  split; [by rewrite length_fmap|].
  assert (Hsess : ∀ ty,
    totalZ ((λ k, count_type ty (group session_key k rows1))
              <$> group_keys pair_le session_key rows1) = count_type ty rows1).
  { intros ty. rewrite count_type_as_totalZ, <-sessions_total.
    apply (f_equal totalZ), list_fmap_ext. intros _ k _.
    apply count_type_as_totalZ. }
  assert (Hday : ∀ ty,
    totalZ ((λ d, count_type ty (group event_date d (set_event_date <$> rows1)))
              <$> group_keys Z.le event_date (set_event_date <$> rows1))
    = count_type ty rows1).
  { intros ty. rewrite (count_type_as_totalZ ty rows1).
    rewrite <-(daily_total _ rows1) by done.
    apply (f_equal totalZ), list_fmap_ext. intros _ k _.
    apply count_type_as_totalZ. }
  split.
  { rewrite length_as_totalZ, <-sessions_total.
    apply (f_equal totalZ), list_fmap_ext. intros _ k _. simpl.
    apply length_as_totalZ. }
  split.
  { rewrite (length_as_totalZ rows1), <-(daily_total _ rows1) by done.
    apply (f_equal totalZ), list_fmap_ext. intros _ k _. simpl.
    apply length_as_totalZ. }
  repeat split; first [apply Hsess | apply Hday].
Qed.

(** The counts of the two-day batch: three events, two of them
    purchases. *)
Lemma event_counts_are_conserved_witness :
  ∃ tables p',
    @_transform Examples.quiet_runtime 0
      (@Examples.holding Examples.quiet_runtime
         (@Examples.validated Examples.quiet_runtime Examples.two_day_batch))
    = (inr tables, p')
    ∧ totalZ (Sessions.event_count <$> sessions_in tables) = 3
    ∧ totalZ (Daily.total_events <$> daily_in tables) = 3
    ∧ totalZ (Sessions.purchases <$> sessions_in tables) = 2
    ∧ totalZ (Daily.purchases <$> daily_in tables) = 2.
Proof.
  destruct (@event_counts_are_conserved Examples.quiet_runtime
              (@Examples.holding Examples.quiet_runtime
                 (@Examples.validated Examples.quiet_runtime
                    Examples.two_day_batch)) 0
              (Examples.rows_of
                 (@Examples.validated Examples.quiet_runtime
                    Examples.two_day_batch))
              (Examples.rows_of
                 (@Examples.validated Examples.quiet_runtime
                    Examples.two_day_batch)))
    as (tables & p' & Hrun & _ & Hse & Hde & _ & _ & _ & _ & _ & _ & Hsp & Hdp).
  - reflexivity.
  - vm_compute. reflexivity.
  - exists tables, p'. split; [exact Hrun|].
    rewrite Hse, Hde, Hsp, Hdp. repeat split; reflexivity.
Defined.

Lemma min_of_le_max_of (l : list Z) : min_of l ≤ max_of l.
Proof.
  destruct l as [|x l]; [done|]. simpl.
  assert (foldr Z.min x l ≤ x ∧ x ≤ foldr Z.max x l) as [? ?]; [|lia].
  induction l as [|y l [IH1 IH2]]; simpl; lia.
Qed.

Lemma total_seconds_nonneg (td : Z) : 0 ≤ td → (0 ≤ total_seconds td)%Qc.
Proof.
  intros Htd. unfold total_seconds, Qcdiv. apply Qcmult_nonneg_nonneg.
  - rewrite <-Z2Qc_inj_0. by apply (proj1 (Z2Qc_inj_le 0 td)).
  - apply Qclt_le_weak, Qcinv_pos. rewrite <-Z2Qc_inj_0.
    by apply (proj1 (Z2Qc_inj_lt 0 1000000)).
Qed.

(** The four counted event types are disjoint. *)
Lemma type_counts_le_length (g : list Row) :
  count_type PAGE_VIEW g + count_type PRODUCT_VIEW g
  + count_type ADD_TO_CART g + count_type PURCHASE g
  ≤ Z.of_nat (length g).
Proof.
  unfold count_type. induction g as [|r g IH]; [done|].
  rewrite !filter_cons. simpl length.
  destruct (event_type r); repeat case_decide; simplify_eq; simpl length; lia.
Qed.

Lemma length_remove_dups `{EqDecision V} (l : list V) :
  (length (remove_dups l) ≤ length l)%nat.
Proof.
  induction l as [|x l IH]; [done|]. simpl.
  destruct (decide_rel elem_of x l); simpl; lia.
Qed.

Lemma nunique_le_length {V} `{EqDecision V} (col : list (option V)) :
  nunique col ≤ Z.of_nat (length col).
Proof.
  unfold nunique. apply inj_le.
  etransitivity; [apply length_remove_dups|].
  induction col as [|[v|] col IH]; cbn in *; lia.
Qed.

(** X3.  Every row of [fct_sessions] describes a session that is not
    empty: it has at least one event, starts no later than it ends, has a
    duration that is not negative, counts no more page views, product
    views, cart additions and purchases together than it has events, and
    no more products than events; it is converted exactly when it has a
    purchase. *)
Theorem session_rows_are_consistent `{!Runtime} (p : ETLPipeline) (df : nat)
    (rows rows1 : list Row) :
  heap p !! df = Some (Events rows) →
  to_datetime_column rows = inr rows1 →
  ∃ tables p', _transform df p = (inr tables, p')
    ∧ ∀ s, s ∈ sessions_in tables →
        1 ≤ Sessions.event_count s
        ∧ Sessions.session_start s ≤ Sessions.session_end s
        ∧ (0 ≤ Sessions.session_duration_seconds s)%Qc
        ∧ Sessions.page_views s + Sessions.product_views s
          + Sessions.add_to_carts s + Sessions.purchases s
          ≤ Sessions.event_count s
        ∧ 0 ≤ Sessions.unique_products s ≤ Sessions.event_count s
        ∧ (Sessions.is_converted s = true ↔ 1 ≤ Sessions.purchases s).
Proof.
  intros Hdf Hdt.
  destruct (transform_returns p df rows rows1 Hdf Hdt) as (p' & Hrun & _).
  exists (transformed_of rows1), p'. split; [done|].
  intros s (k & -> & Hk)%list_elem_of_fmap.
  pose proof (group_nonempty _ _ _ _ Hk) as Hne.
  set (g := group session_key k rows1) in *. simpl. fold g.
  pose proof (min_of_le_max_of (ts <$> g)) as Hmm.
  pose proof (type_counts_le_length g) as Hcounts.
  pose proof (nunique_le_length (product_id <$> g)) as Huniq.
  rewrite length_fmap in Huniq.
  split; [destruct g; [done|simpl; lia]|].
  split; [done|].
  split; [apply total_seconds_nonneg; lia|].
  split; [done|].
  split; [split; [unfold nunique; lia|done]|].
  rewrite bool_decide_eq_true. lia.
Qed.

(** The session of the midnight batch: two events, one purchase, two
    seconds long. *)
Lemma session_rows_are_consistent_witness :
  ∃ tables p',
    @_transform Examples.quiet_runtime 0
      (@Examples.holding Examples.quiet_runtime
         (@Examples.validated Examples.quiet_runtime Examples.midnight_batch))
    = (inr tables, p')
    ∧ ∀ s, s ∈ sessions_in tables →
        1 ≤ Sessions.event_count s
        ∧ Sessions.session_start s ≤ Sessions.session_end s
        ∧ (0 ≤ Sessions.session_duration_seconds s)%Qc.
Proof.
  destruct (@session_rows_are_consistent Examples.quiet_runtime
              (@Examples.holding Examples.quiet_runtime
                 (@Examples.validated Examples.quiet_runtime
                    Examples.midnight_batch)) 0
              (Examples.rows_of
                 (@Examples.validated Examples.quiet_runtime
                    Examples.midnight_batch))
              (Examples.rows_of
                 (@Examples.validated Examples.quiet_runtime
                    Examples.midnight_batch)))
    as (tables & p' & Hrun & Hall).
  - reflexivity.
  - vm_compute. reflexivity.
  - exists tables, p'. split; [exact Hrun|]. intros s Hs.
    destruct (Hall s Hs) as (H1 & H2 & H3 & _). done.
Defined.

Lemma session_keys_of_table (rows : list Row) :
  session_key_of <$> fct_sessions_of rows = group_keys pair_le session_key rows.
Proof.
  unfold fct_sessions_of. rewrite <-list_fmap_compose.
  rewrite <-(list_fmap_id (group_keys _ _ _)) at 2.
  apply list_fmap_ext. intros _ [sid uid] _. done.
Qed.

Lemma daily_dates_of_table (rows : list Row) :
  Daily.event_date <$> fct_daily_of rows = group_keys Z.le event_date rows.
Proof.
  unfold fct_daily_of. rewrite <-list_fmap_compose.
  rewrite <-(list_fmap_id (group_keys _ _ _)) at 2.
  by apply list_fmap_ext.
Qed.

Lemma strictly_sorted (l : list Z) :
  StronglySorted Z.le l → NoDup l → StronglySorted Z.lt l.
Proof.
  induction 1 as [|x l Hsorted IH Hall]; intros Hnd; [constructor|].
  apply NoDup_cons in Hnd as [Hx Hnd]. constructor; [by apply IH|].
  rewrite Forall_forall in Hall |- *. intros y Hy.
  specialize (Hall y Hy). assert (x ≠ y) by (intros ->; done). lia.
Qed.

(** X4.  [fct_sessions] has exactly one row for each pair of a session
    identifier and a user that occurs in the batch, and that row counts the
    events of the pair; [fct_daily_metrics] has exactly one row for each
    date on which an event of the batch falls, in increasing order of the
    dates. *)
Theorem one_row_per_session_and_date `{!Runtime} (p : ETLPipeline) (df : nat)
    (rows rows1 : list Row) :
  heap p !! df = Some (Events rows) →
  to_datetime_column rows = inr rows1 →
  ∃ tables p', _transform df p = (inr tables, p')
    ∧ NoDup (session_key_of <$> sessions_in tables)
    ∧ (∀ sid uid,
         (sid, uid) ∈ session_key_of <$> sessions_in tables
         ↔ ∃ r, r ∈ rows1 ∧ session_id r = sid ∧ user_id r = uid)
    ∧ (∀ s, s ∈ sessions_in tables →
         Sessions.event_count s
         = Z.of_nat (length (filter (λ r, session_id r = Sessions.session_id s
                                          ∧ user_id r = Sessions.user_id s)
                               rows1)))
    ∧ StronglySorted Z.lt (Daily.event_date <$> daily_in tables)
    ∧ (∀ d, d ∈ Daily.event_date <$> daily_in tables
            ↔ ∃ r, r ∈ rows1 ∧ dt_date (ts r) = d).
Proof.
  intros Hdf Hdt.
  destruct (transform_returns p df rows rows1 Hdf Hdt) as (p' & Hrun & _).
  exists (transformed_of rows1), p'. split; [done|].
  assert (Hs : sessions_in (transformed_of rows1) = fct_sessions_of rows1) by done.
  assert (Hd : daily_in (transformed_of rows1)
               = fct_daily_of (set_event_date <$> rows1)) by done.
  rewrite Hs, Hd, session_keys_of_table, daily_dates_of_table.
  split; [apply group_keys_NoDup|]. split; [|split; [|split]].
  - intros sid uid. rewrite elem_of_group_keys. unfold session_key.
    split; intros (r & Hr & Hk); exists r; (split; [done|]).
    + by simplify_eq.
    + destruct Hk as [-> ->]. done.
  - intros s ([sid uid] & -> & _)%list_elem_of_fmap. simpl.
    f_equal. f_equal. unfold group. apply list_filter_iff. intros r.
    unfold session_key. split; [by intros [= -> ->]|by intros [-> ->]].
  - apply strictly_sorted; [|apply group_keys_NoDup].
    unfold group_keys. apply (StronglySorted_merge_sort _).
  - intros d. rewrite elem_of_group_keys. split.
    + intros (r & (r0 & -> & Hr0)%list_elem_of_fmap & Hk).
      exists r0. split; [done|]. simpl in Hk. by simplify_eq.
    + intros (r & Hr & <-). exists (set_event_date r).
      split; [by apply list_elem_of_fmap_2|done].
Qed.

(** The two-day batch has two sessions and two dates, 0 and 1. *)
Lemma one_row_per_session_and_date_witness :
  ∃ tables p',
    @_transform Examples.quiet_runtime 0
      (@Examples.holding Examples.quiet_runtime
         (@Examples.validated Examples.quiet_runtime Examples.two_day_batch))
    = (inr tables, p')
    ∧ NoDup (session_key_of <$> sessions_in tables)
    ∧ StronglySorted Z.lt (Daily.event_date <$> daily_in tables).
Proof.
  destruct (@one_row_per_session_and_date Examples.quiet_runtime
              (@Examples.holding Examples.quiet_runtime
                 (@Examples.validated Examples.quiet_runtime
                    Examples.two_day_batch)) 0
              (Examples.rows_of
                 (@Examples.validated Examples.quiet_runtime
                    Examples.two_day_batch))
              (Examples.rows_of
                 (@Examples.validated Examples.quiet_runtime
                    Examples.two_day_batch)))
    as (tables & p' & Hrun & Hnd & _ & _ & Hsorted & _).
  - reflexivity.
  - vm_compute. reflexivity.
  - exists tables, p'. done.
Defined.

Lemma products_in_transformed (rows1 : list Row) :
  products_in (transformed_of rows1)
  = fct_products_of
      (filter (λ r, is_Some (product_id r)) (set_event_date <$> rows1)).
Proof.
  unfold transformed_of, products_in.
  by destruct (filter _ _) as [|r l].
Qed.

Lemma product_table_absent (rows1 : list Row) :
  table_named "fct_product_performance" (transformed_of rows1) = None
  ↔ filter (λ r, is_Some (product_id r)) (set_event_date <$> rows1) = [].
Proof.
  unfold transformed_of. by destruct (filter _ _) as [|r l].
Qed.

Lemma product_keys_of_table (rows : list Row) :
  product_key_of <$> fct_products_of rows = group_keys pair_le product_key rows.
Proof.
  unfold fct_products_of. rewrite <-list_fmap_compose.
  rewrite <-(list_fmap_id (group_keys _ _ _)) at 2.
  apply list_fmap_ext. intros _ [pid cat] _. done.
Qed.

(** X5.  [fct_product_performance] is absent from the result exactly when
    no event of the batch has a [product_id].  When it is present it has
    one row for each pair of a product and a category that an event
    carries; an event with a product and no category contributes to no
    row. *)
Theorem product_table_presence `{!Runtime} (p : ETLPipeline) (df : nat)
    (rows rows1 : list Row) :
  heap p !! df = Some (Events rows) →
  to_datetime_column rows = inr rows1 →
  ∃ tables p', _transform df p = (inr tables, p')
    ∧ (table_named "fct_product_performance" tables = None
       ↔ ∀ r, r ∈ rows1 → product_id r = None)
    ∧ NoDup (product_key_of <$> products_in tables)
    ∧ (∀ pid cat,
         (pid, cat) ∈ product_key_of <$> products_in tables
         ↔ ∃ r, r ∈ rows1 ∧ product_id r = Some pid ∧ category r = Some cat).
Proof.
  intros Hdf Hdt.
  destruct (transform_returns p df rows rows1 Hdf Hdt) as (p' & Hrun & _).
  exists (transformed_of rows1), p'. split; [done|].
  rewrite product_table_absent, products_in_transformed, product_keys_of_table.
  split; [|split].
  - split.
    + intros Hnil r Hr. destruct (product_id r) as [pid|] eqn:Hp; [|done].
      assert (Hin : set_event_date r
                    ∈ filter (λ r, is_Some (product_id r))
                        (set_event_date <$> rows1)).
      { apply list_elem_of_filter. split; [simpl; by rewrite Hp|].
        by apply list_elem_of_fmap_2. }
      rewrite Hnil in Hin. by apply elem_of_nil in Hin.
    + intros Hnone. apply elem_of_nil_inv. intros r Hr.
      apply list_elem_of_filter in Hr as [Hsome Hr].
      apply list_elem_of_fmap in Hr as (r0 & -> & Hr0).
      simpl in Hsome. rewrite (Hnone r0 Hr0) in Hsome. by destruct Hsome.
  - apply group_keys_NoDup.
  - intros pid cat. rewrite elem_of_group_keys. split.
    + intros (r & Hr & Hk). apply list_elem_of_filter in Hr as [_ Hr].
      apply list_elem_of_fmap in Hr as (r0 & -> & Hr0).
      exists r0. split; [done|]. unfold product_key in Hk. simpl in Hk.
      destruct (product_id r0), (category r0); simpl in Hk; by simplify_eq.
    + intros (r & Hr & Hp & Hc). exists (set_event_date r). split.
      * apply list_elem_of_filter. split; [simpl; by rewrite Hp|].
        by apply list_elem_of_fmap_2.
      * unfold product_key. simpl. by rewrite Hp, Hc.
Qed.

(** The midnight batch has no product, hence no product table. *)
Lemma product_table_presence_witness :
  ∃ tables p',
    @_transform Examples.quiet_runtime 0
      (@Examples.holding Examples.quiet_runtime
         (@Examples.validated Examples.quiet_runtime Examples.midnight_batch))
    = (inr tables, p')
    ∧ table_named "fct_product_performance" tables = None.
Proof.
  destruct (@product_table_presence Examples.quiet_runtime
              (@Examples.holding Examples.quiet_runtime
                 (@Examples.validated Examples.quiet_runtime
                    Examples.midnight_batch)) 0
              (Examples.rows_of
                 (@Examples.validated Examples.quiet_runtime
                    Examples.midnight_batch))
              (Examples.rows_of
                 (@Examples.validated Examples.quiet_runtime
                    Examples.midnight_batch)))
    as (tables & p' & Hrun & Habsent & _).
  - reflexivity.
  - vm_compute. reflexivity.
  - exists tables, p'. split; [exact Hrun|]. apply Habsent.
    intros r Hr. vm_compute in Hr.
    repeat (apply elem_of_cons in Hr as [->|Hr]; [reflexivity|]).
    by apply elem_of_nil in Hr.
Defined.




End GrainFacts.

(** ** Outcomes of a run *)

Section Outcomes.
Import Frame Aggregate Tables Pipeline Grains Metrics Effects.
Local Open Scope string_scope.
Local Arguments Validation.validate_events : simpl never.
Local Arguments concat : simpl never.
Local Arguments log_issues : simpl never.
Local Arguments to_datetime_column : simpl never.

(** The loop of [_load] changes neither the metrics nor the connection,
    whether it ends or raises. *)
Lemma load_tables_metrics `{!Runtime} (tables : list (string * Table)) :
  ∀ (total : Z) (q : ETLPipeline),
  metrics (load_tables tables total q).2 = metrics q
  ∧ conn (load_tables tables total q).2 = conn q.
Proof.
  induction tables as [|[name t] tables IH]; intros total q;
    [split; reflexivity|].
  cbn [load_tables]. destruct (to_parquet_raises name); [split; reflexivity|].
  unfold mbind, M_bind, write_parquet, create_table, logger, modify, get, raise.
  simpl.
  assert (Hnext : ∀ tot q', metrics q' = metrics q → conn q' = conn q →
            metrics (load_tables tables tot q').2 = metrics q
            ∧ conn (load_tables tables tot q').2 = conn q).
  { intros tot q' Hm Hc. destruct (IH tot q') as [-> ->]. done. }
  destruct (conn q) eqn:Hc; simpl.
  - by apply Hnext.
  - destruct (execute_raises name); simpl; [done|]. by apply Hnext.
  - destruct (execute_raises name); simpl; [done|]. by apply Hnext.
Qed.

Lemma reports_bind `{!Runtime} {A B} (m : M A) (f : A → M B) :
  reports m → (∀ x, reports (f x)) → reports (m ≫= f).
Proof.
  intros Hm Hf p. specialize (Hm p). unfold post, mbind, M_bind in *.
  destruct (m p) as [[e|x] q]; [done|].
  specialize (Hf x q). unfold post in Hf.
  destruct Hm as [He Hs].
  destruct (f x q) as [[e|y] r]; unfold same_report, failed_report in *.
  - rewrite He, Hs in Hf. done.
  - rewrite He, Hs in Hf. done.
Qed.

Lemma reports_logger line : reports (logger line).
Proof. intros p. by unfold post, same_report. Qed.

Lemma reports_raise {A} (e : exn) : reports (@raise A e).
Proof. intros p. unfold post, failed_report. simpl. auto. Qed.

Lemma reports_ret {A} (x : A) : reports (mret x).
Proof. intros p. by unfold post, same_report. Qed.

Lemma reports_setup_database `{!Runtime} : reports _setup_database.
Proof.
  unfold _setup_database. apply reports_bind; [apply reports_logger|].
  intros _. destruct connect_raises; [apply reports_raise|].
  apply reports_bind; [|intros _; apply reports_logger].
  intros p. by unfold post, same_report.
Qed.

Lemma reports_extract `{!Runtime} : reports _extract.
Proof.
  unfold _extract. apply reports_bind; [apply reports_logger|]. intros _ p.
  unfold post, mbind, M_bind, get, set_metrics, modify, logger, mret, M_ret,
    raise, same_report, failed_report.
  destruct (source_files p); simpl; auto.
Qed.

Lemma reports_validate `{!Runtime} df : reports (_validate df).
Proof.
  unfold _validate. apply reports_bind; [apply reports_logger|]. intros _ p.
  unfold post, mbind, M_bind, get, set_metrics, alloc, set_heap, modify, logger,
    mret, M_ret, raise, same_report, failed_report.
  destruct (Validation.validate_events _ _ _) as [e|[valid_df result]];
    simpl; [auto|].
  case_decide; simpl; auto.
Qed.

Lemma reports_log_issues issues : reports (log_issues issues).
Proof.
  intros p. destruct (log_issues_returns issues p) as [lines Hl].
  unfold post. rewrite Hl. by unfold same_report.
Qed.

Lemma reports_run_quality_checks `{!Runtime} df :
  reports (_run_quality_checks df).
Proof.
  intros p. unfold _run_quality_checks.
  unfold post, mbind at 1, M_bind at 1, get at 1. cbv beta iota.
  destruct (enable_quality_checks (config p)); cbn [negb].
  - apply (reports_bind (logger _)); [apply reports_logger|]. intros _.
    apply reports_bind; [intros q; by unfold post, same_report|].
    intros frame. destruct (run_all_checks frame) as [e|issues];
      [apply reports_raise|].
    apply reports_bind; [intros q; by unfold post, same_report|]. intros _.
    apply reports_bind; [|intros _; apply reports_logger].
    destruct (filter _ issues); [apply reports_ret|].
    apply reports_bind; [apply reports_logger|]. intros _.
    apply reports_log_issues.
  - apply reports_logger.
Qed.

Lemma reports_transform `{!Runtime} df : reports (_transform df).
Proof.
  unfold _transform. apply reports_bind; [apply reports_logger|]. intros _.
  apply reports_bind; [intros q; by unfold post, same_report|].
  intros [|rows0]; [apply reports_raise|].
  destruct (to_datetime_column rows0); [apply reports_raise|].
  apply reports_bind; [intros q; by unfold post, same_report|]. intros _.
  apply reports_bind; [intros q; by unfold post, same_report|]. intros _.
  apply reports_bind; [apply reports_logger|]. intros _. apply reports_ret.
Qed.

Lemma reports_load_tables `{!Runtime} tables total :
  reports (load_tables tables total).
Proof.
  intros p. pose proof (load_tables_metrics tables total p) as [Hm _].
  unfold post. destruct (load_tables tables total p) as [[e|x] q];
    unfold same_report, failed_report; simpl in Hm; rewrite Hm; auto.
Qed.

(** [_load] and the end of the [try] block: on success the end time is
    set. *)
Lemma load_and_finish `{!Runtime} tables (p : ETLPipeline) :
  post (_load tables;; set_end_time;; logger "PIPELINE COMPLETED SUCCESSFULLY")
    p (λ _ q, same_report p q ∧ end_time (metrics q) = Some now)
    (failed_report p).
Proof.
  unfold post, _load, set_end_time.
  unfold mbind, M_bind, logger, set_metrics, modify. cbv beta iota.
  match goal with
  | |- context [load_tables tables 0 ?q] =>
      pose proof (load_tables_metrics tables 0 q) as [Hm _];
      destruct (load_tables tables 0 q) as [[e|x] r]
  end; simpl in *; unfold same_report, failed_report; simpl; rewrite ?Hm; auto.
Qed.

(** What the [try] block of [run] leaves in the metrics: on success the
    end time and the errors it found; on failure at most one new error,
    the message of the exception. *)
Lemma run_try_metrics `{!Runtime} (p : ETLPipeline) :
  post (logger "STARTING ETL PIPELINE";; run_try) p
    (λ _ q, same_report p q ∧ end_time (metrics q) = Some now)
    (failed_report p).
Proof.
  pose proof (reports_bind (logger "STARTING ETL PIPELINE")
                (λ _, _setup_database;; raw_df ← _extract;
                      valid_df ← _validate raw_df;
                      _run_quality_checks valid_df;; _transform valid_df)) as Hpre.
  specialize (Hpre (reports_logger _)).
  assert (Hrest : reports (logger "STARTING ETL PIPELINE";; _setup_database;;
                           raw_df ← _extract; valid_df ← _validate raw_df;
                           _run_quality_checks valid_df;; _transform valid_df)).
  { apply Hpre. intros _.
    apply reports_bind; [apply reports_setup_database|]. intros _.
    apply reports_bind; [apply reports_extract|]. intros raw_df.
    apply reports_bind; [apply reports_validate|]. intros valid_df.
    apply reports_bind; [apply reports_run_quality_checks|]. intros _.
    apply reports_transform. }
  clear Hpre. specialize (Hrest p). fold before_load in Hrest.
  unfold post in *.
  destruct (before_load p) as [[e|tables] p1] eqn:Hbl.
  - assert (Hfail : (logger "STARTING ETL PIPELINE";; run_try) p = (inl e, p1)).
    { unfold before_load in Hbl. unfold run_try. unfold mbind, M_bind in *.
      destruct (logger "STARTING ETL PIPELINE" p) as [[e0|[]] q0];
        [by simplify_eq|].
      destruct (_setup_database q0) as [[e0|[]] q1]; [by simplify_eq|].
      destruct (_extract q1) as [[e0|raw_df] q2]; [by simplify_eq|].
      destruct (_validate raw_df q2) as [[e0|valid_df] q3]; [by simplify_eq|].
      destruct (_run_quality_checks valid_df q3) as [[e0|[]] q4];
        [by simplify_eq|].
      by rewrite Hbl. }
    by rewrite Hfail.
  - rewrite (run_try_after_before_load p p1 tables Hbl).
    pose proof (load_and_finish tables p1) as Hl. unfold post in Hl.
    destruct Hrest as [He Hs].
    destruct ((_load tables;; set_end_time;;
               logger "PIPELINE COMPLETED SUCCESSFULLY") p1) as [[e|x] q];
      unfold same_report, failed_report in *; rewrite He, Hs in Hl; done.
Qed.

(** X7.  However a run ends, it leaves no connection open and it sets the
    end time, so that the duration is the time from start to end.  A run
    that completes returns the metrics with the errors it started with; a
    run that fails has added errors, the last of which is the message of
    the exception it raises, so [errors_count] has grown. *)
Theorem run_always_reports `{!Runtime} (p : ETLPipeline) :
  conn (run p).2 ≠ Open
  ∧ end_time (metrics (run p).2) = Some now
  ∧ duration_seconds (metrics (run p).2)
    = total_seconds (now - start_time (metrics p))
  ∧ match (run p).1 with
    | inr m =>
        m = metrics (run p).2
        ∧ errors_count (to_dict m) = errors_count (to_dict (metrics p))
    | inl e =>
        (∃ earlier, errors (metrics (run p).2) = (earlier ++ [str e])%list)
        ∧ errors_count (to_dict (metrics (run p).2))
          > errors_count (to_dict (metrics p))
    end.
Proof.
  unfold run. pose proof (run_try_metrics p) as Htry. unfold post in Htry.
  destruct ((logger "STARTING ETL PIPELINE";; run_try) p) as [[e|[]] p1].
  - destruct Htry as [Herr Hstart].
    unfold run_except, run_finally, set_end_time.
    unfold mbind, M_bind, mret, M_ret, logger, set_conn, set_metrics, modify, get.
    simpl. unfold duration_seconds, to_dict.
    destruct (conn p1) eqn:Hc; simpl; rewrite ?Hstart, ?Hc;
      (split; [done|]); (split; [done|]); (split; [done|]);
      (split; [by eexists|]);
      destruct Herr as [-> | ->]; rewrite ?length_app; simpl; lia.
  - destruct Htry as [[Herr Hstart] Hend].
    unfold run_finally.
    unfold mbind, M_bind, mret, M_ret, set_conn, modify, get.
    simpl. unfold duration_seconds, to_dict.
    destruct (conn p1) eqn:Hc; simpl; rewrite ?Hend, ?Hstart, ?Herr, ?Hc; done.
Qed.

(** X8.  When the database cannot be set up, the run fails with the
    exception of the connection before anything is extracted: the log ends
    after "Setting up database", no file and no table is touched, no frame
    is created, and the counters of the metrics keep their values. *)
Theorem setup_failure_stops_the_run `{!Runtime} (p : ETLPipeline) (e : exn) :
  connect_raises = Some e →
  ∃ p', run p = (inl e, p')
    ∧ log p' = (log p ++ ["STARTING ETL PIPELINE"; "Setting up database";
                          "Pipeline failed"])%list
    ∧ errors (metrics p') = (errors (metrics p) ++ [str e])%list
    ∧ records_extracted (metrics p') = records_extracted (metrics p)
    ∧ records_loaded (metrics p') = records_loaded (metrics p)
    ∧ target_files p' = target_files p ∧ analytics p' = analytics p
    ∧ heap p' = heap p.
Proof.
  intros Hconn.
  unfold run, run_try, _setup_database, run_except, run_finally, set_end_time.
  unfold mbind, M_bind, mret, M_ret, logger, set_conn, set_metrics, modify, get,
    raise.
  simpl. rewrite Hconn. simpl.
  destruct (conn p); simpl; eexists; (split; [reflexivity|]); simpl;
    rewrite <-!app_assoc; done.
Qed.

(** A run in an environment where connecting fails. *)
Lemma setup_failure_stops_the_run_witness :
  ∃ p',
    @run Environments.no_database_runtime
      (@Examples.pipeline_on Environments.no_database_runtime
         Examples.two_day_batch)
    = (inl (Exn "IOException" (MsgText "Cannot open file")), p')
    ∧ target_files p' = ∅ ∧ heap p' = [].
Proof.
  destruct (@setup_failure_stops_the_run Environments.no_database_runtime
              (@Examples.pipeline_on Environments.no_database_runtime
                 Examples.two_day_batch)
              (Exn "IOException" (MsgText "Cannot open file")))
    as (p' & Hrun & _ & _ & _ & _ & Hfiles & _ & Hheap).
  - reflexivity.
  - exists p'. done.
Defined.

(** X9.  When the source directory holds no event file, the run fails with
    [FileNotFoundError] before anything is validated: nothing is counted as
    extracted, no file and no table is touched, and the connection that
    was opened is closed. *)
Theorem empty_source_stops_the_run `{!Runtime} (p : ETLPipeline) :
  connect_raises = None →
  source_files p = [] →
  ∃ p', run p
        = (inl (FileNotFoundError (MsgText "No event files found")), p')
    ∧ log p' = (log p ++ ["STARTING ETL PIPELINE"; "Setting up database";
                          "Database schema created successfully";
                          "Extracting data"; "Pipeline failed"])%list
    ∧ conn p' = Closed
    ∧ errors (metrics p')
      = (errors (metrics p) ++ [MsgText "No event files found"])%list
    ∧ records_extracted (metrics p') = records_extracted (metrics p)
    ∧ target_files p' = target_files p ∧ analytics p' = analytics p
    ∧ heap p' = heap p.
Proof.
  intros Hconn Hsrc.
  unfold run, run_try, _setup_database, _extract, run_except, run_finally,
    set_end_time.
  unfold mbind, M_bind, mret, M_ret, logger, set_conn, set_metrics, modify, get,
    raise.
  simpl. rewrite Hconn. simpl. rewrite Hsrc. simpl.
  eexists. split; [reflexivity|]. simpl. rewrite <-!app_assoc. done.
Qed.

(** A new pipeline on an empty source directory. *)
Lemma empty_source_stops_the_run_witness :
  ∃ p',
    @run Examples.quiet_runtime
      (@new_pipeline Examples.quiet_runtime
         (default_config "data/raw" "data/processed" "data/analytics.duckdb")
         [] ∅ ∅)
    = (inl (FileNotFoundError (MsgText "No event files found")), p')
    ∧ conn p' = Closed ∧ target_files p' = ∅.
Proof.
  destruct (@empty_source_stops_the_run Examples.quiet_runtime
              (@new_pipeline Examples.quiet_runtime
                 (default_config "data/raw" "data/processed"
                    "data/analytics.duckdb") [] ∅ ∅))
    as (p' & Hrun & _ & Hconn & _ & _ & Hfiles & _).
  - reflexivity.
  - reflexivity.
  - exists p'. done.
Defined.

(** What [validate_events] returns with its default arguments. *)
Lemma validate_events_default `{!Runtime} (df : list Validation.RawEvent) :
  ∃ valid_df result,
    Validation.validate_events df Validation.default_raise_on_error
      Validation.default_sample_errors = inr (valid_df, result)
    ∧ valid_df = match Validation.valid_of df with
                 | [] => NoColumns
                 | _ => Events (Validation.row_of_event <$> Validation.valid_of df)
                 end
    ∧ Validation.valid_records result
      = Z.of_nat (length (Validation.valid_of df))
    ∧ Validation.total_records result = Z.of_nat (length df)
    ∧ Validation.valid_records result + Validation.invalid_records result
      = Validation.total_records result.
Proof.
  unfold Validation.validate_events, Validation.default_raise_on_error.
  destruct (validate_loop_isolates df 0 Validation.default_sample_errors
              Validation.no_locals) as (st & Hrun & Hv & _).
  pose proof (validate_loop_counts df 0 Validation.default_sample_errors false
                Validation.no_locals) as Hc.
  rewrite Hrun in Hc |- *. simpl in Hv, Hc.
  eexists _, _. split; [reflexivity|]. simpl. rewrite Hv in Hc |- *.
  repeat split. lia.
Qed.



Lemma run_fails_before_load `{!Runtime} (p p1 : ETLPipeline) (e : exn) :
  before_load p = (inl e, p1) →
  ∃ p', run p = (inl e, p')
    ∧ target_files p' = target_files p1 ∧ analytics p' = analytics p1.
Proof.
  intros Hbl.
  assert (Hfail : (logger "STARTING ETL PIPELINE";; run_try) p = (inl e, p1)).
  { unfold before_load in Hbl. unfold run_try. unfold mbind, M_bind in *.
    destruct (logger "STARTING ETL PIPELINE" p) as [[e0|[]] q0];
      [by simplify_eq|].
    destruct (_setup_database q0) as [[e0|[]] q1]; [by simplify_eq|].
    destruct (_extract q1) as [[e0|raw_df] q2]; [by simplify_eq|].
    destruct (_validate raw_df q2) as [[e0|valid_df] q3]; [by simplify_eq|].
    destruct (_run_quality_checks valid_df q3) as [[e0|[]] q4];
      [by simplify_eq|].
    by rewrite Hbl. }
  unfold run. rewrite Hfail.
  unfold run_except, run_finally, set_end_time.
  unfold mbind, M_bind, mret, M_ret, logger, set_conn, set_metrics, modify, get.
  simpl. eexists. split; [reflexivity|]. by destruct (conn p1).
Qed.

(** With no valid record the stages before [_load] fail, whatever the
    threshold is, and write nothing. *)
Lemma before_load_needs_a_valid_record `{!Runtime} (p : ETLPipeline) :
  Validation.valid_of (concat (source_files p)) = [] →
  ∃ e p1, before_load p = (inl e, p1)
    ∧ target_files p1 = target_files p ∧ analytics p1 = analytics p.
Proof.
  intros Hnone.
  destruct (validate_events_default (concat (source_files p)))
    as (valid_df & result & Hv & Hdf & _).
  rewrite Hnone in Hdf. subst valid_df.
  unfold before_load, _setup_database, _extract, _validate,
    _run_quality_checks, _transform.
  unfold mbind, M_bind, mret, M_ret, logger, set_conn, set_metrics, alloc,
    deref, store, set_heap, modify, get, raise.
  simpl. destruct connect_raises; [by eexists _, _|]. simpl.
  destruct (source_files p) as [|src sources] eqn:Hs; [by eexists _, _|].
  simpl. rewrite Hv. simpl. case_decide; [by eexists _, _|]. simpl.
  assert (Hlook : (heap p ++ [NoColumns])%list !!! length (heap p) = NoColumns)
    by (by apply list_lookup_total_middle).
  destruct (enable_quality_checks (config p)); simpl; rewrite ?Hlook.
  - destruct (run_all_checks NoColumns) as [e|issues]; [by eexists _, _|].
    simpl. destruct (filter _ issues) as [|i high]; simpl.
    + rewrite ?Hlook. by eexists _, _.
    + match goal with
      | |- context [log_issues (i :: high) ?q] =>
          destruct (log_issues_returns (i :: high) q) as [lines ->]
      end.
      simpl. rewrite ?Hlook. by eexists _, _.
  - by eexists _, _.
Qed.

(** X11.  A batch without a single valid record never completes a run,
    whatever the threshold: either the run fails before validation, or at
    the threshold, or, with a threshold of 0 or less, on the frame without
    columns that [validate_events] returns for it.  Nothing is written. *)
Theorem no_valid_record_no_output `{!Runtime} (p : ETLPipeline) :
  Validation.valid_of (concat (source_files p)) = [] →
  ∃ e p', run p = (inl e, p')
    ∧ target_files p' = target_files p ∧ analytics p' = analytics p.
Proof.
  intros Hnone.
  destruct (before_load_needs_a_valid_record p Hnone)
    as (e & p1 & Hbl & Hfiles & Hdb).
  destruct (run_fails_before_load p p1 e Hbl) as (p' & Hrun & Hf & Hd).
  exists e, p'. split; [done|]. by rewrite Hf, Hd.
Qed.

(** One invalid event and a threshold of 0. *)
Lemma no_valid_record_no_output_witness :
  ∃ e p',
    @run Examples.quiet_runtime
      (@Environments.without_threshold Examples.quiet_runtime
         [Examples.invalid_event]) = (inl e, p')
    ∧ target_files p' = ∅ ∧ analytics p' = ∅.
Proof.
  apply (@no_valid_record_no_output Examples.quiet_runtime
           (@Environments.without_threshold Examples.quiet_runtime
              [Examples.invalid_event])).
  vm_compute. reflexivity.
Defined.








End Outcomes.

(** ** What validation guarantees *)

Section ValidationFacts.
Import Validation.
Context `{!Runtime}.
Local Open Scope string_scope.
Local Arguments EventSchema : simpl never.

(** The fields of an accepted record are the results of the field
    validators. *)
Lemma EventSchema_fields (r : RawEvent) (ev : Event) :
  EventSchema r = inr ev →
  required (check_str (Some 20%nat) (Some 24%nat) (Some (matches "EVT_" 16)))
    (raw_event_id r) = Some (event_id ev)
  ∧ required (check_str (Some 17%nat) (Some 17%nat) (Some (matches "USER_" 12)))
      (raw_user_id r) = Some (user_id ev)
  ∧ required (check_str (Some 20%nat) (Some 24%nat) (Some (matches "SES_" 16)))
      (raw_session_id r) = Some (session_id ev)
  ∧ required parse_timestamp (raw_timestamp_ r) = Some (timestamp ev)
  ∧ optional (λ v, Some <$> check_str (Some 2%nat) (Some 2%nat) None v) None
      (raw_country r) = Some (country ev)
  ∧ optional (λ v, Some <$> check_str None None (Some (matches "PROD_" 8)) v)
      None (raw_product_id r) = Some (product_id ev)
  ∧ optional check_revenue 0%Qc (raw_revenue r) = Some (revenue ev).
Proof.
  unfold EventSchema. cbv zeta. intros Hok.
  repeat case_match; simplify_eq; done.
Qed.

Lemma required_Some {A B} (check : A → option B) (v : option A) (b : B) :
  required check v = Some b → ∃ a, v = Some a ∧ check a = Some b.
Proof. destruct v as [a|]; [|done]. intros Hc. by exists a. Qed.

Lemma check_str_length (a b : nat) pattern v s :
  check_str (Some a) (Some b) pattern v = Some s →
  (a ≤ String.length s ≤ b)%nat.
Proof.
  unfold check_str. case_match eqn:Hc; [|done]. intros [= <-].
  apply andb_prop in Hc as [Hc _]. apply andb_prop in Hc as [Ha Hb].
  simpl in Ha, Hb. apply Nat.leb_le in Ha, Hb. lia.
Qed.


Lemma matches_length (prefix : string) (n : nat) (s : string) :
  matches prefix n s = true →
  String.length s = (String.length prefix + n)%nat.
Proof.
  unfold matches. intros Hm. apply andb_prop in Hm as [Hm _].
  apply andb_prop in Hm as [_ Hm]. by apply Nat.eqb_eq in Hm.
Qed.

(** An identifier field: the value kept is the stripped text, it matches
    the pattern, and so it has the length the pattern fixes. *)
Lemma identifier_field (a b : nat) (prefix : string) (n : nat)
    (v : option string) (s : string) :
  required (check_str (Some a) (Some b) (Some (matches prefix n))) v = Some s →
  (∃ raw, v = Some raw ∧ s = strip raw)
  ∧ matches prefix n s = true
  ∧ String.length s = (String.length prefix + n)%nat.
Proof.
  intros Hr. apply required_Some in Hr as (raw & -> & Hc).
  apply check_str_Some in Hc as [-> Hp]. simpl in Hp.
  split; [by exists raw|]. split; [done|]. by apply matches_length.
Qed.

(** X13.  Every accepted record is well formed: its three identifiers are
    the stripped input, match their patterns and so have 20, 17 and 20
    characters (the [max_length] of 24 is never reached); the revenue lies
    between 0 and 100000 and is 0 when the record has none; a country has
    two characters; a product identifier matches its pattern; a timestamp
    that was a datetime is kept. *)
Theorem accepted_event_is_well_formed (r : RawEvent) (ev : Event) :
  EventSchema r = inr ev →
  (raw_event_id r ≫= (λ v, Some (strip v)) = Some (event_id ev)
   ∧ matches "EVT_" 16 (event_id ev) = true
   ∧ String.length (event_id ev) = 20%nat)
  ∧ (raw_user_id r ≫= (λ v, Some (strip v)) = Some (user_id ev)
     ∧ matches "USER_" 12 (user_id ev) = true
     ∧ String.length (user_id ev) = 17%nat)
  ∧ (raw_session_id r ≫= (λ v, Some (strip v)) = Some (session_id ev)
     ∧ matches "SES_" 16 (session_id ev) = true
     ∧ String.length (session_id ev) = 20%nat)
  ∧ (0 ≤ revenue ev)%Qc ∧ (revenue ev ≤ Qc_of_Z 100000)%Qc
  ∧ (raw_revenue r = None → revenue ev = 0%Qc)
  ∧ (∀ c, country ev = Some c → String.length c = 2%nat)
  ∧ (∀ pid, product_id ev = Some pid → matches "PROD_" 8 pid = true)
  ∧ (∀ t, raw_timestamp_ r = Some (RawDatetime t) → timestamp ev = t).
Proof.
  intros Hok.
  destruct (EventSchema_fields r ev Hok)
    as (Hid & Huid & Hsid & Hts & Hcountry & Hpid & Hrev).
  apply identifier_field in Hid as ((v1 & -> & ->) & Hm1 & Hl1).
  apply identifier_field in Huid as ((v2 & -> & ->) & Hm2 & Hl2).
  apply identifier_field in Hsid as ((v3 & -> & ->) & Hm3 & Hl3).
  split; [done|]. split; [done|]. split; [done|].
  assert (Hrange : (0 ≤ revenue ev)%Qc ∧ (revenue ev ≤ Qc_of_Z 100000)%Qc).
  { destruct (raw_revenue r) as [x|]; simpl in Hrev.
    - unfold check_revenue in Hrev. case_match eqn:Hc; [|done].
      injection Hrev as <-. apply andb_prop in Hc as [Ha Hb].
      by apply bool_decide_eq_true in Ha, Hb.
    - injection Hrev as <-. split; by vm_compute. }
  split; [apply Hrange|]. split; [apply Hrange|].
  split; [intros Hnone; rewrite Hnone in Hrev; by injection Hrev|].
  split; [|split].
  - intros c Hc. rewrite Hc in Hcountry.
    destruct (raw_country r) as [v|]; simpl in Hcountry; [|done].
    destruct (check_str _ _ _ v) as [c'|] eqn:Hv; simpl in Hcountry; [|done].
    injection Hcountry as ->. apply check_str_length in Hv. lia.
  - intros pid Hp. rewrite Hp in Hpid.
    destruct (raw_product_id r) as [v|]; simpl in Hpid; [|done].
    destruct (check_str _ _ _ v) as [p'|] eqn:Hv; simpl in Hpid; [|done].
    injection Hpid as ->. by apply check_str_Some in Hv as [_ Hv].
  - intros t Ht. rewrite Ht in Hts. simpl in Hts. by injection Hts.
Qed.

(** The only exception of the schema is [ValidationError]. *)
Lemma rejected_is_ValidationError (r : RawEvent) (e : exn) :
  EventSchema r = inl e → type_name e = "ValidationError".
Proof.
  unfold EventSchema. cbv zeta. intros Hrej.
  repeat case_match; simplify_eq; done.
Qed.

Lemma count_errors_other (ty : string) (rows : list RawEvent) :
  ty ≠ "ValidationError" → count_errors ty rows = 0.
Proof.
  intros Hty. induction rows as [|r rows IH]; [done|].
  rewrite count_errors_cons, IH. rewrite decide_False; [done|].
  unfold error_type_of. destruct (EventSchema r) as [e|ev] eqn:E; [|done].
  apply rejected_is_ValidationError in E. congruence.
Qed.

Lemma count_errors_invalid (rows : list RawEvent) :
  Z.of_nat (length (valid_of rows)) + count_errors "ValidationError" rows
  = Z.of_nat (length rows).
Proof.
  induction rows as [|r rows IH]; [done|].
  rewrite valid_of_cons, count_errors_cons.
  assert (Hty : error_type_of r
                = match EventSchema r with
                  | inl _ => Some "ValidationError"
                  | inr _ => None
                  end).
  { unfold error_type_of. destruct (EventSchema r) as [e|ev] eqn:E; [|done].
    by rewrite (rejected_is_ValidationError r e E). }
  rewrite Hty. destruct (EventSchema r) as [e|ev].
  - rewrite decide_True by done. simpl length. lia.
  - rewrite decide_False by done. simpl length. lia.
Qed.

(** X14.  The summary of a batch has one error type at most: it is empty
    when no record is invalid, and otherwise maps [ValidationError] to the
    number of invalid records, so its counts add up to
    [invalid_records]. *)
Theorem error_summary_has_one_type (df : list RawEvent) (sample_errors : Z) :
  ∃ valid_df result,
    validate_events df false sample_errors = inr (valid_df, result)
    ∧ invalid_records result
      = Z.of_nat (length df) - Z.of_nat (length (valid_of df))
    ∧ error_summary result
      = if decide (invalid_records result = 0) then ∅
        else {["ValidationError" := invalid_records result]}.
Proof.
  destruct (validate_loop_isolates df 0 sample_errors no_locals)
    as (st & Hrun & Hv & Hs & _).
  pose proof (validate_loop_counts df 0 sample_errors false no_locals) as Hc.
  rewrite Hrun in Hc. simpl in Hc, Hv.
  pose proof (count_errors_invalid df) as Hinv.
  exists (finish df st).1, (finish df st).2.
  split; [unfold validate_events; by rewrite Hrun|].
  unfold finish. simpl. rewrite Hv in Hc.
  split; [lia|].
  assert (Hn : Z.of_nat (length (l_invalid_indices st))
               = count_errors "ValidationError" df) by lia.
  rewrite Hn. apply map_eq. intros ty. rewrite Hs. simpl.
  rewrite lookup_empty. simpl.
  destruct (decide (ty = "ValidationError")) as [->|Hty].
  - case_decide as Hz; [by rewrite lookup_empty|].
    by rewrite lookup_singleton_eq.
  - rewrite (count_errors_other ty df Hty). rewrite decide_True by done.
    case_decide; [by rewrite lookup_empty|].
    by rewrite lookup_singleton_ne.
Qed.

(** The rate of [valid] records among [total]. *)
Lemma percentage_bounds (valid total : Z) :
  (0 ≤ valid ≤ total)%Z → (0 < total)%Z →
  let rate := (Qc_of_Z valid / Qc_of_Z total * Qc_of_Z 100)%Qc in
  (0 ≤ rate)%Qc ∧ (rate ≤ Qc_of_Z 100)%Qc
  ∧ (rate = Qc_of_Z 100 ↔ valid = total).
Proof.
  intros [Hv Hvt] Ht rate.
  assert (Hv' : (0 ≤ Qc_of_Z valid)%Qc) by apply (proj1 (Z2Qc_inj_le 0 valid) Hv).
  assert (Ht' : (0 < Qc_of_Z total)%Qc) by apply (proj1 (Z2Qc_inj_lt 0 total) Ht).
  assert (Hne : Qc_of_Z total ≠ 0%Qc).
  { intros Hz. rewrite Hz in Ht'. by apply Qclt_not_eq in Ht'. }
  assert (Hi : (0 ≤ / Qc_of_Z total)%Qc) by by apply Qclt_le_weak, Qcinv_pos.
  assert (Hc : (0 ≤ Qc_of_Z 100)%Qc) by by vm_compute.
  assert (Hc' : Qc_of_Z 100 ≠ 0%Qc) by by vm_compute.
  assert (Hq : (0 ≤ Qc_of_Z valid / Qc_of_Z total)%Qc)
    by by apply Qcmult_nonneg_nonneg.
  assert (Hq1 : (Qc_of_Z valid / Qc_of_Z total ≤ 1)%Qc).
  { rewrite <-(Qcmult_inv_r (Qc_of_Z total)) by done.
    unfold Qcdiv. apply Qcmult_le_compat_r; [|done].
    by apply (proj1 (Z2Qc_inj_le valid total)). }
  split; [by apply Qcmult_nonneg_nonneg|]. split.
  - subst rate. rewrite <-(Qcmult_1_l (Qc_of_Z 100)) at 2.
    by apply Qcmult_le_compat_r.
  - subst rate. split.
    + intros Heq. apply Z2Qc_inj.
      rewrite <-(test_field (Qc_of_Z valid) (Qc_of_Z total)) by done.
      rewrite <-(Qcdiv_mult_l (Qc_of_Z valid / Qc_of_Z total) (Qc_of_Z 100))
        by done.
      rewrite Heq. unfold Qcdiv. rewrite Qcmult_inv_r by done.
      apply Qcmult_1_l.
    + intros ->. unfold Qcdiv. rewrite Qcmult_inv_r by done.
      apply Qcmult_1_l.
Qed.

(** X15.  The validity rate of a validated batch is a percentage: it lies
    between 0 and 100, and it is 100 exactly when the batch is not empty
    and has no invalid record; an empty batch has the rate 0, not 100. *)
Theorem validity_rate_is_a_percentage (df : list RawEvent)
    (raise_on_error : bool) (sample_errors : Z)
    (valid_df : Frame.DataFrame) (result : ValidationResult) :
  validate_events df raise_on_error sample_errors = inr (valid_df, result) →
  (0 ≤ validity_rate result)%Qc
  ∧ (validity_rate result ≤ Qc_of_Z 100)%Qc
  ∧ (validity_rate result = Qc_of_Z 100
     ↔ df ≠ [] ∧ invalid_records result = 0).
Proof.
  unfold validate_events. intros Hrun.
  pose proof (validate_loop_counts df 0 sample_errors raise_on_error no_locals)
    as Hc.
  destruct (validate_loop _ _ _ _ _) as [e|st]; [done|].
  injection Hrun as <- <-. simpl in Hc.
  unfold validity_rate. simpl. case_decide as Hz.
  - assert (df = []) as -> by (destruct df; [done|simpl in Hz; lia]).
    split; [by vm_compute|]. split; [by vm_compute|].
    split; [by vm_compute|]. by intros [? _].
  - destruct (percentage_bounds (Z.of_nat (length (l_valid_records st)))
                (Z.of_nat (length df))) as (H0 & H100 & Heq); [lia|lia|].
    split; [done|]. split; [done|]. rewrite Heq. split.
    + intros Hall. split; [by intros ->|]. lia.
    + intros [_ Hnone]. lia.
Qed.

(** While the rows are valid, the loop does the same in both modes. *)
Lemma validate_loop_valid_prefix (rows rest : list RawEvent) :
  Forall (λ r, error_type_of r = None) rows →
  ∀ (idx n : Z) (raise_on_error : bool) (st : Locals),
  validate_loop (rows ++ rest) idx raise_on_error n st
  = validate_loop rest (idx + Z.of_nat (length rows)) raise_on_error n
      (mkLocals (l_valid_records st ++ valid_of rows) (l_invalid_indices st)
         (l_error_summary st) (l_error_samples st)).
Proof.
  induction 1 as [|r rows Hr _ IH]; intros idx n roe st.
  - simpl. rewrite Z.add_0_r, app_nil_r. by destruct st.
  - rewrite <-app_comm_cons. cbn [validate_loop]. rewrite valid_of_cons.
    unfold error_type_of in Hr.
    destruct (EventSchema r) as [e|ev] eqn:E; [done|].
    rewrite IH. simpl. rewrite <-app_assoc. simpl.
    f_equal. lia.
Qed.

(** X16.  With [raise_on_error] the call raises the exception of the first
    invalid record, whatever follows it; on a batch without an invalid
    record the flag makes no difference. *)
Theorem fail_fast_raises_first_error (valid rest : list RawEvent)
    (sample_errors : Z) :
  Forall (λ r, error_type_of r = None) valid →
  (∀ r e, EventSchema r = inl e →
     validate_events (valid ++ r :: rest) true sample_errors = inl e)
  ∧ validate_events valid true sample_errors
    = validate_events valid false sample_errors.
Proof.
  intros Hvalid. split.
  - intros r e Hrej. unfold validate_events.
    rewrite (validate_loop_valid_prefix valid (r :: rest) Hvalid).
    cbn [validate_loop]. by rewrite Hrej.
  - unfold validate_events.
    pose proof (validate_loop_valid_prefix valid [] Hvalid) as Hloop.
    rewrite app_nil_r in Hloop. by rewrite !Hloop.
Qed.

End ValidationFacts.

(** The event of the test suite. *)
Lemma accepted_event_is_well_formed_witness :
  String.length "EVT_1234567890ABCDEF" = 20%nat
  ∧ Validation.matches "SES_" 16 "SES_1234567890ABCDEF" = true.
Proof.
  destruct (@accepted_event_is_well_formed Examples.quiet_runtime
              Examples.valid_event
              (Validation.mkEvent "EVT_1234567890ABCDEF" PAGE_VIEW
                 "USER_ABC123DEF456" "SES_1234567890ABCDEF" 0 (JDict [])
                 (Some MOBILE) (Some "US"%string) (Some ORGANIC) None None
                 (Qc_of_Z 0)))
    as ((_ & _ & Hlen) & _ & (_ & Hses & _) & _).
  - vm_compute. reflexivity.
  - split; [exact Hlen|exact Hses].
Defined.

(** The batch of four valid events and an invalid one has the rate 80. *)
Lemma validity_rate_is_a_percentage_witness :
  ∃ valid_df result,
    @Validation.validate_events Examples.quiet_runtime
      Examples.mostly_valid_batch false 5 = inr (valid_df, result)
    ∧ (0 ≤ Validation.validity_rate result)%Qc
    ∧ (Validation.validity_rate result ≤ Qc_of_Z 100)%Qc.
Proof.
  destruct (@Validation.validate_events Examples.quiet_runtime
              Examples.mostly_valid_batch false 5)
    as [e|[valid_df result]] eqn:Hrun.
  - vm_compute in Hrun. discriminate Hrun.
  - exists valid_df, result. split; [reflexivity|].
    destruct (@validity_rate_is_a_percentage Examples.quiet_runtime
                Examples.mostly_valid_batch false 5 valid_df result Hrun)
      as (H0 & H100 & _).
    split; assumption.
Defined.

(** Two valid events before an invalid one: the exception is that of the
    invalid event. *)
Lemma fail_fast_raises_first_error_witness :
  @Validation.validate_events Examples.quiet_runtime
    ([Examples.valid_event; Examples.valid_event]
     ++ Examples.invalid_event :: [Examples.event_without_session]) true 5
  = inl (ValidationError ["event_id"%string]).
Proof.
  apply (@fail_fast_raises_first_error Examples.quiet_runtime
           [Examples.valid_event; Examples.valid_event]
           [Examples.event_without_session] 5).
  - repeat constructor.
  - vm_compute. reflexivity.
Defined.

(** ** Sessions over a run of the generator *)

Section SessionFacts.
Import Generator SessionTable.

Lemma total_seconds_nonpos (td : Z) : td ≤ 0 → (total_seconds td ≤ 0)%Qc.
Proof.
  intros Htd. unfold total_seconds, Qcdiv.
  rewrite <-(Qcmult_0_l (/ Qc_of_Z 1000000)).
  apply Qcmult_le_compat_r.
  - rewrite <-Z2Qc_inj_0. by apply (proj1 (Z2Qc_inj_le td 0)).
  - apply Qclt_le_weak, Qcinv_pos. rewrite <-Z2Qc_inj_0.
    by apply (proj1 (Z2Qc_inj_lt 0 1000000)).
Qed.

(** X17.  Events are not generated in the order of their timestamps.  An
    event of a user that is not later than the user's last activity joins
    the open session however far back it lies, and it moves the last
    activity back to its own timestamp; so the next event is measured from
    there, and opens a new session when it is a timeout or more after the
    earlier timestamp, however close it is to the later one. *)
Theorem earlier_event_joins_and_rewinds
    (g : EventGenerator) (u : string) (t1 t2 t3 : Z)
    (others : list (string * Z)) :
  ids_drawn g →
  0 < session_timeout_minutes g →
  Forall (λ e, e.1 ≠ u) others →
  t2 ≤ t1 →
  let r1 := _get_or_create_session g u t1 in
  let g2 := (sessionize r1.2 others).2 in
  let r2 := _get_or_create_session g2 u t2 in
  let r3 := _get_or_create_session r2.2 u t3 in
  r2.1 = r1.1
  ∧ (∃ s, active_sessions r2.2 !! u = Some s
          ∧ session_id s = r1.1 ∧ last_activity s = t2)
  ∧ (r3.1 ≠ r1.1 ↔
       (Qc_of_Z (session_timeout_minutes g * 60) ≤ total_seconds (t3 - t2))%Qc).
Proof.
  intros Hg Hpos Hothers Hle r1 g2 r2 r3.
  destruct (get_or_create_entry g u t1 Hg) as (s & Hs & Hid & Hla & Hlt).
  destruct (sessionize_others r1.2 u others Hothers) as (Ha & Hb & Hc).
  fold r1 in Hs, Hid, Hlt. fold g2 in Ha, Hb, Hc.
  assert (Htm : session_timeout_minutes g2 = session_timeout_minutes g).
  { rewrite Hb. apply get_or_create_timeout. }
  assert (Hin : (total_seconds (t2 - t1)
                 < Qc_of_Z (session_timeout_minutes g * 60))%Qc).
  { apply Qcle_lt_trans with 0%Qc; [apply total_seconds_nonpos; lia|].
    rewrite <-Z2Qc_inj_0. apply (proj1 (Z2Qc_inj_lt 0 _)). lia. }
  assert (Hr2 : r2 = (session_id s,
                      {| active_sessions :=
                           <[u := {| session_id := session_id s;
                                     Generator.start_time := Generator.start_time s;
                                     last_activity := t2;
                                     event_count := event_count s + 1;
                                     cart := cart s |}]> (active_sessions g2);
                         session_timeout_minutes := session_timeout_minutes g2;
                         uuid_draws := uuid_draws g2 |})).
  { subst r2. unfold _get_or_create_session. rewrite Ha, Hs, Hla, Htm.
    by rewrite decide_True. }
  split; [by rewrite Hr2|]. split.
  - rewrite Hr2. simpl. rewrite lookup_insert_eq. by eexists.
  - subst r3. rewrite Hr2. unfold _get_or_create_session, create_session.
    simpl. rewrite lookup_insert_eq. simpl. rewrite Htm.
    case_decide as Hlt3; simpl.
    + split; [congruence|]. intros Hge. by apply Qcle_not_lt in Hge.
    + split; [intros _; by apply Qcnot_lt_le|]. intros _. lia.
Qed.

(** From the initial generator: after events at 10:00 and 09:00, an event
    at 10:10 is seventy minutes after the last activity and opens a new
    session. *)
Lemma earlier_event_joins_and_rewinds_witness :
  let r1 := _get_or_create_session init "U1" 36000000000 in
  let r2 := _get_or_create_session r1.2 "U1" 32400000000 in
  let r3 := _get_or_create_session r2.2 "U1" 36600000000 in
  r2.1 = r1.1 ∧ r3.1 ≠ r1.1.
Proof.
  destruct (earlier_event_joins_and_rewinds init "U1" 36000000000 32400000000
              36600000000 []) as (Hjoin & _ & Hnew).
  - apply ids_drawn_init.
  - reflexivity.
  - constructor.
  - lia.
  - split; [exact Hjoin|]. apply Hnew. by vm_compute.
Defined.

Lemma sessionize_cons (g : EventGenerator) (u : string) (t : Z)
    (rest : list (string * Z)) :
  (sessionize g ((u, t) :: rest)).1
  = (_get_or_create_session g u t).1
    :: (sessionize (_get_or_create_session g u t).2 rest).1.
Proof.
  cbn [sessionize]. destruct (_get_or_create_session g u t) as [sid g1].
  cbn [fst snd]. by destruct (sessionize g1 rest).
Qed.

(** A call either keeps the identifier of the user's entry or draws the
    next one. *)
Lemma get_or_create_cases (g : EventGenerator) (u : string) (t : Z) :
  ((_get_or_create_session g u t).1 = uuid_draws g
   ∧ uuid_draws (_get_or_create_session g u t).2 = S (uuid_draws g))
  ∨ (∃ e, active_sessions g !! u = Some e
          ∧ session_id e = (_get_or_create_session g u t).1
          ∧ uuid_draws (_get_or_create_session g u t).2 = uuid_draws g).
Proof.
  unfold _get_or_create_session, create_session.
  destruct (active_sessions g !! u) as [e|]; [case_decide|]; simpl;
    [right; by exists e|by left|by left].
Qed.

Lemma ids_distinct_init : ids_distinct init.
Proof. intros u v s s' Hs. simpl in Hs. by rewrite lookup_empty in Hs. Qed.

Lemma ids_distinct_step (g : EventGenerator) (u : string) (t : Z) :
  ids_drawn g → ids_distinct g →
  ids_distinct (_get_or_create_session g u t).2.
Proof.
  intros Hd Hg a b s s'.
  destruct (get_or_create_entry g u t Hd) as (e & He & Hid & _ & _).
  destruct (decide (a = u)) as [->|Ha], (decide (b = u)) as [->|Hb];
    [done|..].
  - rewrite He, (get_or_create_other g u t b) by done.
    intros [= <-] Hs' Heq. exfalso.
    destruct (get_or_create_cases g u t) as [[Hnew _]|(e0 & He0 & Hkeep & _)].
    + specialize (Hd b s' Hs'). lia.
    + apply Hb. apply (Hg b u s' e0); [done|done|congruence].
  - rewrite He, (get_or_create_other g u t a) by done.
    intros Hs [= <-] Heq. exfalso.
    destruct (get_or_create_cases g u t) as [[Hnew _]|(e0 & He0 & Hkeep & _)].
    + specialize (Hd a s Hs). lia.
    + apply Ha. apply (Hg a u s e0); [done|done|congruence].
  - rewrite !(get_or_create_other g u t) by done. apply Hg.
Qed.

(** An identifier returned during a run is either drawn during the run or
    the one of the user's entry at the start; in the second case the user's
    earlier events of the run got the same identifier. *)
Lemma sessionize_old_or_fresh (events : list (string * Z)) :
  ∀ (g : EventGenerator) (k : nat) (u : string) (t : Z) (s : nat),
  ids_drawn g →
  events !! k = Some (u, t) →
  (sessionize g events).1 !! k = Some s →
  (uuid_draws g ≤ s)%nat
  ∨ (∃ e, active_sessions g !! u = Some e ∧ session_id e = s
          ∧ ∀ k' t', (k' < k)%nat → events !! k' = Some (u, t') →
              (sessionize g events).1 !! k' = Some s).
Proof.
  induction events as [|[u0 t0] rest IH]; intros g k u t s Hd Hev Hsid;
    [done|].
  rewrite sessionize_cons in Hsid |- *.
  pose proof (ids_drawn_step g u0 t0 Hd) as Hd1.
  pose proof (get_or_create_draws g u0 t0) as Hmono.
  destruct k as [|k1]; simpl in Hev, Hsid.
  - injection Hev as -> ->. injection Hsid as <-.
    destruct (get_or_create_cases g u t) as [[Hnew _]|(e & He & Hkeep & _)].
    + left. lia.
    + right. exists e. split; [done|]. split; [done|]. intros k' t' Hk. lia.
  - destruct (IH _ k1 u t s Hd1 Hev Hsid) as [Hfresh|(e1 & He1 & Hid1 & Hbefore)].
    + left. lia.
    + destruct (decide (u0 = u)) as [->|Hne].
      * destruct (get_or_create_entry g u t0 Hd) as (e & He & Hid & _ & _).
        assert (e1 = e) as -> by congruence.
        destruct (get_or_create_cases g u t0)
          as [[Hnew _]|(e0 & He0 & Hkeep & _)].
        -- left. lia.
        -- right. exists e0. split; [done|]. split; [congruence|].
           intros [|k'] t' Hk Hev'; simpl; [congruence|].
           simpl in Hev'. apply (Hbefore k' t'); [lia|done].
      * right. exists e1. rewrite (get_or_create_other g u0 t0 u Hne) in He1.
        split; [done|]. split; [done|].
        intros [|k'] t' Hk Hev'; simpl in Hev' |- *; [congruence|].
        apply (Hbefore k' t'); [lia|done].
Qed.

(** X18.  Identifiers being fresh, a session belongs to one user and holds
    a run of consecutive events of that user: when two events of a run get
    the same identifier they are of the same user, and every event of that
    user between them has that identifier too.  A session that was closed
    is never taken up again. *)
Theorem sessions_are_runs_of_one_user (events : list (string * Z)) :
  ∀ (g : EventGenerator),
  ids_drawn g → ids_distinct g →
  ∀ (i j : nat) (u v : string) (ti tj : Z) (s : nat),
  (i ≤ j)%nat →
  events !! i = Some (u, ti) → events !! j = Some (v, tj) →
  (sessionize g events).1 !! i = Some s →
  (sessionize g events).1 !! j = Some s →
  u = v
  ∧ ∀ k tk, (i ≤ k ≤ j)%nat → events !! k = Some (u, tk) →
      (sessionize g events).1 !! k = Some s.
Proof.
  induction events as [|[u0 t0] rest IH];
    intros g Hd Hg i j u v ti tj s Hij Hi Hj Hsi Hsj; [done|].
  rewrite sessionize_cons in Hsi, Hsj |- *.
  pose proof (ids_drawn_step g u0 t0 Hd) as Hd1.
  pose proof (ids_distinct_step g u0 t0 Hd Hg) as Hg1.
  destruct i as [|i1]; simpl in Hi, Hsi.
  - injection Hi as -> ->. injection Hsi as <-.
    destruct (get_or_create_entry g u ti Hd) as (e & He & Hid & _ & Hlt).
    destruct j as [|j1]; simpl in Hj, Hsj.
    + injection Hj as -> ->. split; [done|].
      intros k tk Hk _. by replace k with 0%nat by lia.
    + destruct (sessionize_old_or_fresh rest _ j1 v tj _ Hd1 Hj Hsj)
        as [Hfresh|(e1 & He1 & Hid1 & Hbefore)]; [lia|].
      assert (v = u) as -> by (apply (Hg1 v u e1 e); [done|done|congruence]).
      split; [done|]. intros [|k1] tk Hk Hev; simpl; [done|].
      simpl in Hev. destruct (decide (k1 = j1)) as [->|Hne]; [done|].
      apply (Hbefore k1 tk); [lia|done].
  - destruct j as [|j1]; [lia|]. simpl in Hj, Hsj.
    destruct (IH _ Hd1 Hg1 i1 j1 u v ti tj s) as [-> Hrun];
      [lia|done..|].
    split; [done|]. intros [|k1] tk Hk Hev; [lia|].
    simpl in Hev |- *. apply (Hrun k1 tk); [lia|done].
Qed.

(** From the initial generator, with the events of two users interleaved:
    the first and the last event of U1 share a session, and so does the
    event of U1 between them. *)
Lemma sessions_are_runs_of_one_user_witness :
  (sessionize init [("U1"%string, 36000000000); ("U2"%string, 36300000000);
                    ("U1"%string, 36600000000); ("U1"%string, 37200000000)]).1
    !! 2%nat = Some 0%nat.
Proof.
  destruct (sessions_are_runs_of_one_user
              [("U1"%string, 36000000000); ("U2"%string, 36300000000);
               ("U1"%string, 36600000000); ("U1"%string, 37200000000)]
              init ids_drawn_init ids_distinct_init 0 3 "U1" "U1"
              36000000000 37200000000 0) as [_ Hrun].
  - lia.
  - reflexivity.
  - reflexivity.
  - vm_compute. reflexivity.
  - vm_compute. reflexivity.
  - apply (Hrun 2%nat 36600000000); [lia|reflexivity].
Defined.

End SessionFacts.

(** ** Quality checks *)

Section QualityFacts.
Import Frame Quality.
Local Open Scope string_scope.

Lemma filter_length_mono {A} (P Q : A → Prop) `{∀ x, Decision (P x)}
    `{∀ x, Decision (Q x)} (l : list A) :
  (∀ x, x ∈ l → P x → Q x) →
  (length (filter P l) ≤ length (filter Q l))%nat.
Proof.
  induction l as [|a l IH]; intros Himp; [done|].
  rewrite !filter_cons.
  assert (IH' : (length (filter P l) ≤ length (filter Q l))%nat).
  { apply IH. intros x Hx. apply Himp. by right. }
  destruct (decide (P a)) as [Hp|Hp].
  - rewrite decide_True by (apply Himp; [left|done]). simpl. lia.
  - destruct (decide (Q a)); simpl; lia.
Qed.

Lemma filter_nil_not_elem_of {A} (P : A → Prop) `{∀ x, Decision (P x)}
    (l : list A) :
  filter P l = [] ↔ ∀ x, x ∈ l → ¬ P x.
Proof.
  split.
  - intros Hnil x Hx Hp.
    assert (Hin : x ∈ filter P l) by by apply list_elem_of_filter.
    rewrite Hnil in Hin. by apply elem_of_nil in Hin.
  - intros Hall. induction l as [|a l IH]; [done|].
    rewrite filter_cons, decide_False by (apply Hall; left).
    apply IH. intros x Hx. apply Hall. by right.
Qed.

(** The values of a column are distinct exactly when none occurs in more
    than one row. *)
Lemma NoDup_fmap_count {A K} `{EqDecision K} (f : A → K) (l : list A) :
  NoDup (f <$> l)
  ↔ ∀ x, x ∈ l → (length (filter (λ y, f y = f x) l) ≤ 1)%nat.
Proof.
  induction l as [|a l IH].
  - split; [intros _ x Hx; by apply elem_of_nil in Hx|constructor].
  - rewrite fmap_cons, NoDup_cons, IH. split.
    + intros [Hnew Hrest] x Hx. rewrite filter_cons.
      apply elem_of_cons in Hx as [->|Hx].
      * rewrite decide_True by done. simpl.
        replace (filter (λ y, f y = f a) l) with (@nil A); [done|].
        symmetry. apply filter_nil_not_elem_of. intros y Hy Heq.
        apply Hnew. rewrite <-Heq. by apply list_elem_of_fmap_2.
      * destruct (decide (f a = f x)) as [Heq|Hne]; [|by apply Hrest].
        exfalso. apply Hnew. rewrite Heq. by apply list_elem_of_fmap_2.
    + intros Hall. split.
      * intros Hin. apply list_elem_of_fmap in Hin as (y & Heq & Hy).
        specialize (Hall a ltac:(left)).
        rewrite filter_cons, decide_True in Hall by done. simpl in Hall.
        assert (Hin : y ∈ filter (λ y0, f y0 = f a) l)
          by by apply list_elem_of_filter.
        destruct (filter (λ y0, f y0 = f a) l); [by apply elem_of_nil in Hin|].
        simpl in Hall. lia.
      * intros x Hx. specialize (Hall x ltac:(by right)).
        rewrite filter_cons in Hall.
        destruct (decide (f a = f x)); simpl in Hall; lia.
Qed.

Lemma duplicated_nil (rows : list Row) :
  duplicated rows = [] ↔ NoDup (event_id <$> rows).
Proof.
  unfold duplicated. rewrite filter_nil_not_elem_of, NoDup_fmap_count.
  split; intros Hall x Hx; specialize (Hall x Hx); lia.
Qed.

(** A repeated identifier brings all its rows into the selection. *)
Lemma duplicated_at_least_two (rows : list Row) :
  duplicated rows ≠ [] → (2 ≤ length (duplicated rows))%nat.
Proof.
  intros Hne. destruct (duplicated rows) as [|r rest] eqn:Hd; [done|].
  assert (Hr : r ∈ duplicated rows) by (rewrite Hd; left).
  rewrite <-Hd. unfold duplicated in Hr |- *.
  apply list_elem_of_filter in Hr as [Hcount _].
  etransitivity; [exact Hcount|].
  apply filter_length_mono. intros x _ Hx. by rewrite Hx.
Qed.

(** X19.  [check_duplicates] on a frame with the event columns never
    raises and leaves the frame and the earlier issues as they are.  It
    adds nothing when the event identifiers are distinct; otherwise it
    adds one issue of high severity whose count is the number of rows with
    a repeated identifier, which is two at least and the number of rows at
    most. *)
Theorem check_duplicates_finds_repeated_ids (self : DataQualityChecker)
    (rows : list Row) :
  df self = Events rows →
  ∃ self', check_duplicates self = inr self'
    ∧ df self' = df self
    ∧ (NoDup (event_id <$> rows) → self' = self)
    ∧ (¬ NoDup (event_id <$> rows) →
       ∃ n, issues self'
            = (issues self
               ++ [mkIssue "duplicates" "high" n
                     (Found n "duplicate event IDs")])%list
         ∧ n = Z.of_nat (length (duplicated rows))
         ∧ (2 ≤ n ≤ Z.of_nat (length rows))%Z).
Proof.
  intros Hdf. unfold check_duplicates. rewrite Hdf.
  pose proof (duplicated_nil rows) as Hnil.
  pose proof (duplicated_at_least_two rows) as Htwo.
  assert (Hle : (length (duplicated rows) ≤ length rows)%nat)
    by apply length_filter.
  case_decide as Hpos.
  - eexists. split; [reflexivity|]. simpl. split; [done|]. split.
    + intros Hnd. apply Hnil in Hnd. rewrite Hnd in Hpos. simpl in Hpos. lia.
    + intros _. eexists. split; [reflexivity|]. split; [done|].
      assert (duplicated rows ≠ []) as Hne
        by (intros Hd; rewrite Hd in Hpos; simpl in Hpos; lia).
      specialize (Htwo Hne). lia.
  - exists self. split; [done|]. split; [done|]. split; [done|].
    intros Hdup. exfalso. apply Hdup, Hnil.
    destruct (duplicated rows); [done|simpl in Hpos; lia].
Qed.






(** The frame of the test suite with its first row added again: two rows
    share [EVT_1]. *)
Lemma check_duplicates_finds_repeated_ids_witness :
  ∃ self', check_duplicates (new (Events repeated_ids)) = inr self'
    ∧ issues self'
      = [mkIssue "duplicates" "high" 2 (Found 2 "duplicate event IDs")].
Proof.
  destruct (check_duplicates_finds_repeated_ids (new (Events repeated_ids))
              repeated_ids eq_refl) as (self' & Hrun & _ & _ & Hdup).
  exists self'. split; [exact Hrun|].
  destruct Hdup as (n & Hissues & Hn & _).
  - apply (bool_decide_unpack _). vm_compute. exact I.
  - rewrite Hissues, Hn. reflexivity.
Defined.




End QualityFacts.

(** ** What [_load] leaves in the target directory and the database *)

Section LoadFacts.
Import Frame Tables Pipeline Grains.
Context `{!Runtime}.
Local Open Scope string_scope.

Lemma string_length_app (s1 s2 : string) :
  String.length (s1 +:+ s2) = (String.length s1 + String.length s2)%nat.
Proof. induction s1 as [|c s1 IH]; simpl; [done|]. by rewrite IH. Qed.

(** Two names with the same file name are the same name. *)
Lemma file_name_inj (extension s1 s2 : string) :
  s1 +:+ extension = s2 +:+ extension → s1 = s2.
Proof.
  revert s2. induction s1 as [|c s1 IH]; intros [|c' s2] Heq.
  - done.
  - apply (f_equal String.length) in Heq.
    rewrite !string_length_app in Heq. simpl in Heq. lia.
  - apply (f_equal String.length) in Heq.
    rewrite !string_length_app in Heq. simpl in Heq. lia.
  - simpl in Heq. injection Heq as -> Heq. f_equal. by apply IH.
Qed.

(** Writing named tables one after the other: a key that no table has is
    left alone, and with distinct names every table is found under its
    key. *)
Lemma foldl_insert_other (key : string → string)
    (tables : list (string * Table)) (m : gmap string Table) (k : string) :
  (∀ name, name ∈ tables.*1 → k ≠ key name) →
  foldl (λ acc nt, <[key nt.1 := nt.2]> acc) m tables !! k = m !! k.
Proof.
  revert m. induction tables as [|[n0 t0] rest IH]; intros m Hk; [done|].
  simpl. rewrite IH by (intros name Hn; apply Hk; by right).
  apply lookup_insert_ne. symmetry. apply Hk. by left.
Qed.

Lemma foldl_insert_lookup (key : string → string)
    (tables : list (string * Table)) (m : gmap string Table)
    (name : string) (t : Table) :
  (∀ a b, key a = key b → a = b) →
  NoDup tables.*1 →
  (name, t) ∈ tables →
  foldl (λ acc nt, <[key nt.1 := nt.2]> acc) m tables !! key name = Some t.
Proof.
  intros Hinj. revert m.
  induction tables as [|[n0 t0] rest IH]; intros m Hnd Hin;
    [by apply elem_of_nil in Hin|].
  rewrite fmap_cons in Hnd. apply NoDup_cons in Hnd as [Hnew Hnd].
  simpl. apply elem_of_cons in Hin as [[= -> ->]|Hin]; [|by apply IH].
  rewrite foldl_insert_other; [by rewrite lookup_insert_eq|].
  intros name Hname Heq. apply Hinj in Heq as ->. done.
Qed.

(** The loop of [_load] when no write fails, with or without a
    connection. *)
Lemma load_tables_returns (tables : list (string * Table)) :
  (∀ name, name ∈ tables.*1 → to_parquet_raises name = None) →
  ∀ (total : Z) (q : ETLPipeline),
  (conn q ≠ NotConnected →
   ∀ name, name ∈ tables.*1 → execute_raises name = None) →
  ∃ q', load_tables tables total q
        = (inr (total + totalZ (table_len ∘ snd <$> tables))%Z, q')
    ∧ target_files q' = written tables (target_files q)
    ∧ analytics q'
      = match conn q with
        | NotConnected => analytics q
        | _ => created tables (analytics q)
        end
    ∧ conn q' = conn q ∧ metrics q' = metrics q.
Proof.
  induction tables as [|[name t] tables IH]; intros Hpq total q Hex.
  - exists q. simpl. rewrite Z.add_0_r. by destruct (conn q).
  - cbn [load_tables]. rewrite (Hpq name) by (simpl; left).
    unfold mbind, M_bind, mret, M_ret, write_parquet, create_table, logger,
      modify, get, raise.
    simpl.
    assert (Hpq' : ∀ n, n ∈ tables.*1 → to_parquet_raises n = None)
      by (intros n Hn; apply Hpq; by right).
    destruct (conn q) eqn:Hconn; simpl.
    + match goal with
      | |- context [load_tables tables ?tot ?q0] =>
          destruct (IH Hpq' tot q0) as (q' & -> & Hf & Hd & Hc & Hm)
      end.
      { simpl. intros Hne. by destruct Hne. }
      exists q'. simpl in *. rewrite Hf, Hd, Hc, Hm, ?Hconn.
      repeat split. do 2 f_equal. unfold fmap. lia.
    + rewrite (Hex ltac:(done) name) by (simpl; left). simpl.
      match goal with
      | |- context [load_tables tables ?tot ?q0] =>
          destruct (IH Hpq' tot q0) as (q' & -> & Hf & Hd & Hc & Hm)
      end.
      { simpl. intros _ n Hn. apply Hex; [done|by right]. }
      exists q'. simpl in *. rewrite Hf, Hd, Hc, Hm, ?Hconn.
      repeat split. do 2 f_equal. unfold fmap. lia.
    + rewrite (Hex ltac:(done) name) by (simpl; left). simpl.
      match goal with
      | |- context [load_tables tables ?tot ?q0] =>
          destruct (IH Hpq' tot q0) as (q' & -> & Hf & Hd & Hc & Hm)
      end.
      { simpl. intros _ n Hn. apply Hex; [done|by right]. }
      exists q'. simpl in *. rewrite Hf, Hd, Hc, Hm, ?Hconn.
      repeat split. do 2 f_equal. unfold fmap. lia.
Qed.

(** X22.  When no write fails, [_load] on a connected pipeline stores every
    table of the dictionary under its name: the file [name.parquet] and the
    database table [name] hold that table afterwards, whatever they held
    before, and [records_loaded] is the number of rows of all tables.  A
    file or a database table that the dictionary does not name is left as
    it was, so an output of an earlier run that this run does not produce
    stays in place. *)
Theorem load_stores_each_table_under_its_name
    (tables : list (string * Table)) (q : ETLPipeline) :
  NoDup tables.*1 →
  conn q = Open →
  (∀ name, name ∈ tables.*1 →
     to_parquet_raises name = None ∧ execute_raises name = None) →
  ∃ q', _load tables q = (inr (), q')
    ∧ (∀ name t, (name, t) ∈ tables →
         target_files q' !! (name +:+ ".parquet") = Some t
         ∧ analytics q' !! name = Some t)
    ∧ (∀ file, (∀ name, name ∈ tables.*1 → file ≠ name +:+ ".parquet") →
         target_files q' !! file = target_files q !! file)
    ∧ (∀ name, name ∉ tables.*1 → analytics q' !! name = analytics q !! name)
    ∧ records_loaded (metrics q') = totalZ (table_len ∘ snd <$> tables).
Proof.
  intros Hnd Hconn Hok. unfold _load.
  unfold mbind, M_bind, mret, M_ret, logger, set_metrics, modify, get.
  cbv beta iota.
  match goal with
  | |- context [load_tables tables 0 ?q0] =>
      destruct (load_tables_returns tables (λ n Hn, proj1 (Hok n Hn)) 0 q0)
        as (q' & -> & Hf & Hd & Hc & Hm)
  end.
  { intros _ n Hn. apply Hok, Hn. }
  simpl in Hf, Hd, Hc, Hm. rewrite Hconn in Hd.
  eexists. split; [reflexivity|]. simpl. rewrite Hf, Hd.
  split; [|split; [|split]].
  - intros name t Hin. split.
    + apply (foldl_insert_lookup (λ n, n +:+ ".parquet")); [|done..].
      apply file_name_inj.
    + by apply (foldl_insert_lookup (λ n, n)).
  - intros file Hfile.
    by apply (foldl_insert_other (λ n, n +:+ ".parquet")).
  - intros name Hname. apply (foldl_insert_other (λ n, n)).
    intros n Hn ->. done.
  - done.
Qed.

(** X23.  Without a connection [_load] still writes every parquet file and
    counts the rows, and it does not touch the database: no statement is
    executed, so a failure of the database cannot stop it. *)
Theorem load_without_connection_writes_files_only
    (tables : list (string * Table)) (q : ETLPipeline) :
  conn q = NotConnected →
  (∀ name, name ∈ tables.*1 → to_parquet_raises name = None) →
  ∃ q', _load tables q = (inr (), q')
    ∧ target_files q' = written tables (target_files q)
    ∧ analytics q' = analytics q
    ∧ records_loaded (metrics q') = totalZ (table_len ∘ snd <$> tables).
Proof.
  intros Hconn Hok. unfold _load.
  unfold mbind, M_bind, mret, M_ret, logger, set_metrics, modify, get.
  cbv beta iota.
  match goal with
  | |- context [load_tables tables 0 ?q0] =>
      destruct (load_tables_returns tables Hok 0 q0)
        as (q' & -> & Hf & Hd & Hc & Hm)
  end.
  { simpl. by rewrite Hconn. }
  simpl in Hf, Hd, Hc, Hm. rewrite Hconn in Hd.
  eexists. split; [reflexivity|]. simpl. by rewrite Hf, Hd.
Qed.

End LoadFacts.

(** The tables of the batch of two days, loaded by a connected pipeline:
    the sessions are in [fct_sessions.parquet] afterwards. *)
Lemma load_stores_each_table_under_its_name_witness :
  let rows :=
    Examples.rows_of (@Examples.validated Examples.quiet_runtime
                        Examples.two_day_batch) in
  ∃ q',
    @Pipeline._load Examples.quiet_runtime (Tables.transformed_of rows)
      (@Examples.holding Examples.quiet_runtime (Frame.Events rows))
    = (inr (), q')
    ∧ Pipeline.target_files q' !! "fct_sessions.parquet"%string
      = Some (TSessions (Aggregate.fct_sessions_of rows)).
Proof.
  intros rows.
  destruct (@load_stores_each_table_under_its_name Examples.quiet_runtime
              (Tables.transformed_of rows)
              (@Examples.holding Examples.quiet_runtime (Frame.Events rows)))
    as (q' & Hrun & Hfound & _).
  - apply (bool_decide_unpack _). vm_compute. exact I.
  - reflexivity.
  - intros name _. split; reflexivity.
  - exists q'. split; [exact Hrun|].
    apply (Hfound "fct_sessions"%string). right. left.
Defined.

(** The same tables loaded by a pipeline that has no connection: eight
    rows are counted and the database stays empty. *)
Lemma load_without_connection_writes_files_only_witness :
  let rows :=
    Examples.rows_of (@Examples.validated Examples.quiet_runtime
                        Examples.two_day_batch) in
  ∃ q',
    @Pipeline._load Examples.quiet_runtime (Tables.transformed_of rows)
      (@Examples.pipeline_on Examples.quiet_runtime Examples.two_day_batch)
    = (inr (), q')
    ∧ Pipeline.analytics q' = ∅
    ∧ Pipeline.records_loaded (Pipeline.metrics q') = 8.
Proof.
  intros rows.
  destruct (@load_without_connection_writes_files_only Examples.quiet_runtime
              (Tables.transformed_of rows)
              (@Examples.pipeline_on Examples.quiet_runtime
                 Examples.two_day_batch))
    as (q' & Hrun & _ & Hdb & Hloaded).
  - reflexivity.
  - intros name _. reflexivity.
  - exists q'. split; [exact Hrun|]. split; [exact Hdb|].
    rewrite Hloaded. vm_compute. reflexivity.
Defined.

(** ** Reference data *)

Section CatalogFacts.
Import Catalog.
Context `{!Runtime}.
Local Open Scope string_scope.
Local Arguments ProductSchema : simpl never.
Local Arguments UserSchema : simpl never.









(** The cases of the test suite: a price of zero and a segment that is not
    among the four are rejected, and the errors name the fields. *)
Example zero_price_is_rejected :
  ProductSchema (test_product 0) = inl (ValidationError ["price"])
  ∧ ∃ v, ProductSchema (test_product 100) = inr v ∧ in_stock v = true.
Proof. split; [by vm_compute|]. eexists. split; by vm_compute. Qed.

Example invalid_segment_is_rejected :
  UserSchema (test_user "invalid_segment") = inl (ValidationError ["segment"])
  ∧ ∃ v, UserSchema (test_user "power_buyer") = inr v
         ∧ is_subscribed v = false.
Proof. split; [by vm_compute|]. eexists. split; by vm_compute. Qed.

End CatalogFacts.

(** ** When a run completes *)

Section Completion.
Import Frame Aggregate Tables Pipeline Grains Cli.
Context `{!Runtime}.
Local Open Scope string_scope.
Local Arguments Validation.validate_events : simpl never.
Local Arguments concat : simpl never.
Local Arguments log_issues : simpl never.
Local Arguments to_datetime_column : simpl never.





End Completion.

(** ** Helper functions *)

Section UtilsFacts.
Import Frame Aggregate Utils.
Local Open Scope string_scope.








Lemma json_dict_ind (P : json → Prop) :
  (∀ v, is_dict v = false → P v) →
  (∀ d, Forall (λ kv : string * json, P kv.2) d → P (JDict d)) →
  ∀ v, P v.
Proof.
  intros Hleaf Hdict. fix IH 1.
  intros [|b|q|t|l|d]; try (by apply Hleaf).
  apply Hdict. induction d as [|[k v] rest IHd]; constructor; [apply IH|done].
Qed.

(** The loop of [flatten_dict] as a map over the items. *)
Lemma flatten_unfold (d : list (string * json)) (parent_key sep : string) :
  flatten (JDict d) parent_key sep
  = dict (d ≫= λ kv,
            if is_dict kv.2 then flatten kv.2 (new_key parent_key sep kv.1) sep
            else [(new_key parent_key sep kv.1, kv.2)]).
Proof.
  cbn [flatten]. f_equal. induction d as [|[k v] rest IH]; [done|].
  cbn [mbind list_bind]. simpl. by rewrite IH.
Qed.

Lemma dict_set_elem_of (k : string) (v : json) (d : list (string * json))
    (kv : string * json) :
  kv ∈ dict_set k v d → kv = (k, v) ∨ kv ∈ d.
Proof.
  induction d as [|[k' v'] rest IH]; simpl.
  - intros Hin. apply list_elem_of_singleton in Hin. by left.
  - case_decide as Hk.
    + intros Hin. apply elem_of_cons in Hin as [->|Hin]; [by left|].
      right. by right.
    + intros Hin. apply elem_of_cons in Hin as [->|Hin]; [right; left|].
      destruct (IH Hin) as [->|Hrest]; [by left|]. right. by right.
Qed.

Lemma dict_set_fresh (k : string) (v : json) (d : list (string * json)) :
  k ∉ d.*1 → dict_set k v d = (d ++ [(k, v)])%list.
Proof.
  induction d as [|[k' v'] rest IH]; [done|]. simpl. intros Hk.
  apply not_elem_of_cons in Hk as [Hne Hk].
  rewrite decide_False by done. by rewrite IH.
Qed.

Lemma dict_set_keys (k : string) (v : json) (d : list (string * json)) :
  (dict_set k v d).*1 = if decide (k ∈ d.*1) then d.*1 else (d.*1 ++ [k])%list.
Proof.
  induction d as [|[k' v'] rest IH]; cbn [dict_set].
  - rewrite decide_False; [done|]. apply not_elem_of_nil.
  - rewrite (fmap_cons fst (k', v') rest). cbn [fst].
    destruct (decide (k' = k)) as [->|Hne].
    + rewrite decide_True by left. by rewrite fmap_cons.
    + rewrite fmap_cons, IH. cbn [fst].
      destruct (decide (k ∈ rest.*1)) as [Hin|Hnin].
      * rewrite decide_True by by right. done.
      * rewrite decide_False; [done|].
        intros Hin. apply elem_of_cons in Hin as [->|Hin]; done.
Qed.

Lemma dict_acc_elem_of (items acc : list (string * json)) (kv : string * json) :
  kv ∈ foldl (λ d kv, dict_set kv.1 kv.2 d) acc items → kv ∈ acc ∨ kv ∈ items.
Proof.
  revert acc. induction items as [|[k v] rest IH]; intros acc; simpl.
  - by left.
  - intros Hin. destruct (IH _ Hin) as [Hacc|Hrest]; [|right; by right].
    apply dict_set_elem_of in Hacc as [->|Hacc]; [right; left|by left].
Qed.

Lemma dict_acc_NoDup (items acc : list (string * json)) :
  NoDup acc.*1 → NoDup (foldl (λ d kv, dict_set kv.1 kv.2 d) acc items).*1.
Proof.
  revert acc. induction items as [|[k v] rest IH]; intros acc Hnd; [done|].
  simpl. apply IH. rewrite dict_set_keys. case_decide as Hk; [done|].
  apply NoDup_app. split; [done|]. split; [|apply NoDup_singleton].
  intros x Hx Hxk. apply list_elem_of_singleton in Hxk as ->. done.
Qed.

Lemma dict_acc_distinct (items acc : list (string * json)) :
  NoDup ((acc ++ items)%list).*1 →
  foldl (λ d kv, dict_set kv.1 kv.2 d) acc items = (acc ++ items)%list.
Proof.
  revert acc. induction items as [|[k v] rest IH]; intros acc Hnd; simpl.
  - by rewrite app_nil_r.
  - assert (Hfresh : k ∉ acc.*1).
    { rewrite fmap_app in Hnd. apply NoDup_app in Hnd as (_ & Hdisj & _).
      intros Hin. apply (Hdisj k Hin). simpl. left. }
    rewrite dict_set_fresh by done. rewrite IH; [by rewrite <-app_assoc|].
    by rewrite <-app_assoc.
Qed.

(** X29.  [flatten_dict] returns a flat dictionary: no value of the result
    is a dictionary, its keys are distinct, and flattening it once more
    changes nothing.  A nested dictionary that is empty leaves no key
    behind, and the example of the docstring gives [a_b] and [a_c]. *)
Theorem flatten_dict_is_flat (d : list (string * json))
    (parent_key sep : string) :
  let flat := flatten_dict d parent_key sep in
  (∀ k v, (k, v) ∈ flat → is_dict v = false)
  ∧ NoDup flat.*1
  ∧ flatten_dict flat EmptyString sep = flat
  ∧ (∀ k, flatten_dict [(k, JDict [])] parent_key sep = [])
  ∧ flatten_dict [("a", JDict [("b", JNum 1); ("c", JNum 2)])] EmptyString "_"
    = [("a_b", JNum 1); ("a_c", JNum 2)].
Proof.
  intros flat.
  assert (Hflat : ∀ v pk, Forall (λ kv : string * json, is_dict kv.2 = false)
                            (flatten v pk sep)).
  { intros v. induction v as [v Hleaf|items IH] using json_dict_ind; intros pk.
    - destruct v; try constructor. done.
    - rewrite flatten_unfold. apply Forall_forall. intros kv Hin.
      apply dict_acc_elem_of in Hin as [Hin|Hin]; [by apply elem_of_nil in Hin|].
      apply list_elem_of_bind in Hin as ([k v] & Hkv & Hitem). simpl in Hkv.
      destruct (is_dict v) eqn:Hv.
      + rewrite Forall_forall in IH. specialize (IH (k, v) Hitem (new_key pk sep k)).
        rewrite Forall_forall in IH. by apply IH.
      + apply list_elem_of_singleton in Hkv as ->. done. }
  assert (Hkeys : NoDup flat.*1).
  { subst flat. unfold flatten_dict. rewrite flatten_unfold.
    apply dict_acc_NoDup. constructor. }
  split; [|split; [done|split; [|split]]].
  - intros k v Hin. specialize (Hflat (JDict d) parent_key).
    rewrite Forall_forall in Hflat. by apply (Hflat (k, v)).
  - unfold flatten_dict at 1. rewrite flatten_unfold.
    assert (Hsame : (flat ≫= λ kv,
                       if is_dict kv.2
                       then flatten kv.2 (new_key EmptyString sep kv.1) sep
                       else [(new_key EmptyString sep kv.1, kv.2)])
                    = flat).
    { specialize (Hflat (JDict d) parent_key). fold (flatten_dict d parent_key sep) in Hflat.
      fold flat in Hflat. clear Hkeys. induction Hflat as [|[k v] rest Hv _ IH]; [done|].
      cbn [mbind list_bind]. simpl in *. rewrite Hv. simpl. f_equal. exact IH. }
    rewrite Hsame. by apply (dict_acc_distinct flat []).
  - intros k. reflexivity.
  - reflexivity.
Qed.

End UtilsFacts.
